(** * gcs_transcribe_async: a shallow embedding and its properties

    The script [gcs_transcribe_async.py] loads an audio file (local or in
    cloud storage), sends it to a speech-recognition service, polls a
    long-running job and writes the transcript next to the input.

    Modelling conventions.
    - A Python [str] is a [string]; file contents are lists of bytes, the
      UTF-8 encoding of a text being the bytes of its [string].
    - A Python [float] is the rational number it denotes ([Q]).  Signed
      zero, infinities and the rounding of float subtraction are not
      represented; [round(x, 2)] is rounding to the nearest hundredth with
      ties to even, and [repr] is the shortest decimal of a float with at
      most two decimals and magnitude below 1e16.
    - Effects are threaded through a small state-and-exception monad over
      a [world]: the file system, the readings of the system clock, the
      answers of the recognition service and the trace of observable
      events.  An exception leaves the effects performed so far in place.
    - The polling loop may run for ever, so it takes fuel. *)

From Stdlib Require Import ZArith QArith Qround Qabs List Lia Lqa.
From Stdlib Require Import Ascii String DecimalString.
From stdpp Require Import gmap strings.

Local Open Scope string_scope.

(** ** Python values and exceptions *)

(** The exceptions the script can die from.  [SystemExit] is what
    [exit()] raises. *)
Inductive exn : Type :=
  | IOError
  | TypeError
  | IndexError
  | UnboundLocalError
  | SystemExit.

(** A transcription is whatever a driver returns: a [str], or [None] when
    the function falls off its end without a [return]. *)
Inductive pyval : Type :=
  | PyNone
  | PyStr (s : string).

(** The outcome of a computation; [OutOfFuel] is not a Python outcome, it
    marks a run cut short by the fuel of the model. *)
Inductive result (A : Type) : Type :=
  | Ok (a : A)
  | Raise (e : exn)
  | OutOfFuel.
Arguments Ok {A} a.
Arguments Raise {A} e.
Arguments OutOfFuel {A}.

(** ** The world *)

Inductive event : Type :=
  | Print (msg : string)
  | Sleep (seconds : Z)
  | OpenRead (p : string)
  | OpenWrite (p : string)
  | Recognize
  | LongRunningRecognize.

(** One recognised segment: its alternative transcripts, best first. *)
Definition segment : Type := list string.

Record world : Type := World {
  w_cwd : string;                    (* working directory of the process *)
  w_files : gmap string (list Byte.byte); (* readable files, by absolute path *)
  w_writable : string -> bool;       (* can this path be opened for writing *)
  w_clock : nat -> Q;                (* k-th reading of the system clock *)
  w_reads : nat;                     (* clock readings taken so far *)
  w_ctime : Q -> string;             (* rendering of a time by time.ctime *)
  w_done : nat -> bool;              (* k-th answer of operation.done() *)
  w_polls : nat;                     (* answers taken so far *)
  w_results : list segment;          (* what the service recognises *)
  w_trace : list event               (* observable events, oldest first *)
}.

Definition M (A : Type) : Type := world -> result A * world.

Definition ret {A} (a : A) : M A := fun w => (Ok a, w).

Definition bind {A B} (m : M A) (k : A -> M B) : M B :=
  fun w =>
    match m w with
    | (Ok a, w') => k a w'
    | (Raise e, w') => (Raise e, w')
    | (OutOfFuel, w') => (OutOfFuel, w')
    end.

Definition raise {A} (e : exn) : M A := fun w => (Raise e, w).

Definition out_of_fuel {A} : M A := fun w => (OutOfFuel, w).

#[export] Instance M_ret : MRet M := @ret.
#[export] Instance M_bind : MBind M := fun A B k m => bind m k.

Definition get_world : M world := fun w => (Ok w, w).

(** The world after one more observable event. *)
Definition add_event (e : event) (w : world) : world :=
  World (w_cwd w) (w_files w) (w_writable w) (w_clock w) (w_reads w)
        (w_ctime w) (w_done w) (w_polls w) (w_results w) (w_trace w ++ [e]).

(** The world with another file system. *)
Definition with_files (fs : gmap string (list Byte.byte)) (w : world) : world :=
  World (w_cwd w) fs (w_writable w) (w_clock w) (w_reads w)
        (w_ctime w) (w_done w) (w_polls w) (w_results w) (w_trace w).

(** The world after one more reading of the clock. *)
Definition tick (w : world) : world :=
  World (w_cwd w) (w_files w) (w_writable w) (w_clock w) (S (w_reads w))
        (w_ctime w) (w_done w) (w_polls w) (w_results w) (w_trace w).

(** The world after one more answer of the job. *)
Definition polled (w : world) : world :=
  World (w_cwd w) (w_files w) (w_writable w) (w_clock w) (w_reads w)
        (w_ctime w) (w_done w) (S (w_polls w)) (w_results w) (w_trace w).

Definition emit (e : event) : M unit := fun w => (Ok tt, add_event e w).

Definition set_files (fs : gmap string (list Byte.byte)) : M unit :=
  fun w => (Ok tt, with_files fs w).

(** [print(msg)] *)
Definition print (msg : string) : M unit := emit (Print msg).

(** [time.time()]: the next reading of the clock. *)
Definition time_time : M Q :=
  fun w => (Ok (w_clock w (w_reads w)), tick w).

(** [time.ctime()] is [time.ctime(time.time())]. *)
Definition time_ctime : M string :=
  t ← time_time; w ← get_world; mret (w_ctime w t).

(** [time.sleep(n)] *)
Definition time_sleep (seconds : Z) : M unit := emit (Sleep seconds).

(** ** Strings as Python slices them *)

Module Py.

(** [s[:i]] and [s[i:]] for [0 <= i]. *)
Definition take (i : nat) (s : string) : string := substring 0 i s.
Definition drop (i : nat) (s : string) : string :=
  substring i (String.length s - i) s.

(** [s.startswith(p)] *)
Fixpoint startswith (p s : string) : bool :=
  match p, s with
  | EmptyString, _ => true
  | String _ _, EmptyString => false
  | String a p', String b s' => Ascii.eqb a b && startswith p' s'
  end.

(** [s.endswith(p)] for a one-character [p]. *)
Fixpoint endswith_char (c : ascii) (s : string) : bool :=
  match s with
  | EmptyString => false
  | String a EmptyString => Ascii.eqb a c
  | String _ rest => endswith_char c rest
  end.

(** [s.rfind(c)] for a one-character [c]: the index of its last
    occurrence, or [-1]. *)
Fixpoint rfind_from (c : ascii) (s : string) (i : Z) (last : Z) : Z :=
  match s with
  | EmptyString => last
  | String a rest =>
      rfind_from c rest (i + 1) (if Ascii.eqb a c then i else last)
  end.
Definition rfind (c : ascii) (s : string) : Z := rfind_from c s 0 (-1).

(** [s.rstrip(c)] for a one-character [c]. *)
Fixpoint rstrip (c : ascii) (s : string) : string :=
  match s with
  | EmptyString => EmptyString
  | String a rest =>
      match rstrip c rest with
      | EmptyString => if Ascii.eqb a c then EmptyString else String a EmptyString
      | rest' => String a rest'
      end
  end.

(** [c * n] *)
Fixpoint repeat_char (c : ascii) (n : nat) : string :=
  match n with
  | O => EmptyString
  | S n' => String c (repeat_char c n')
  end.

End Py.

(** ** [os.path] on a POSIX system (CPython's [posixpath]) *)

Module os_path.

Definition sep : ascii := "/"%char.
Definition extsep : ascii := "."%char.

(** [os.path.split(p)]: everything up to the last slash, and the rest;
    trailing slashes are stripped from the head unless it is all slashes. *)
Definition split (p : string) : string * string :=
  let i := Z.to_nat (Py.rfind sep p + 1) in
  let head := Py.take i p in
  let tail := Py.drop i p in
  let head :=
    if negb (String.eqb head "") &&
       negb (String.eqb head (Py.repeat_char sep (String.length head)))
    then Py.rstrip sep head else head in
  (head, tail).

(** The loop of [genericpath._splitext] skipping the leading dots of the
    file name: is there a character other than a dot in [p[i:dot]]? *)
Fixpoint has_non_dot (p : string) (i : nat) (n : nat) : bool :=
  match n with
  | O => false
  | S n' =>
      if negb (String.eqb (substring i 1 p) (String extsep EmptyString))
      then true
      else has_non_dot p (S i) n'
  end.

(** [os.path.splitext(p)] *)
Definition splitext (p : string) : string * string :=
  let sepIndex := Py.rfind sep p in
  let dotIndex := Py.rfind extsep p in
  if (sepIndex <? dotIndex)%Z &&
     has_non_dot p (Z.to_nat (sepIndex + 1))
                 (Z.to_nat (dotIndex - (sepIndex + 1)))
  then (Py.take (Z.to_nat dotIndex) p, Py.drop (Z.to_nat dotIndex) p)
  else (p, "").

(** [os.path.join(a, b)] *)
Definition join (a b : string) : string :=
  if Py.startswith "/" b then b
  else if String.eqb a "" || Py.endswith_char sep a then a ++ b
  else a ++ "/" ++ b.

End os_path.

(** A path given to [open] is resolved against the working directory. *)
Definition resolve (cwd p : string) : string :=
  if Py.startswith "/" p then p else os_path.join cwd p.


(** ** Floats with two decimals *)

Definition Qlt_bool (x y : Q) : bool := negb (Qle_bool y x).

(** Nearest integer, ties to the even one. *)
Definition round_half_even (x : Q) : Z :=
  let f := Qfloor x in
  match (x - inject_Z f ?= 1 # 2)%Q with
  | Lt => f
  | Gt => (f + 1)%Z
  | Eq => if Z.even f then f else (f + 1)%Z
  end.

(** [round(x, 2)] *)
Definition py_round2 (x : Q) : Q := (round_half_even (x * 100) # 100)%Q.

(** [divmod(x, y)] for [0 < y]: the floor of the quotient and what is left. *)
Definition py_divmod (x y : Q) : Q * Q :=
  let m := inject_Z (Qfloor (x / y)) in
  (m, (x - m * y)%Q).

Definition digits (n : Z) : string :=
  NilZero.string_of_uint (N.to_uint (Z.to_N n)).

(** [repr] of a non-negative number of hundredths [c / 100]: the whole
    part, a point, and one or two decimals ("45.0", "45.5", "45.25"). *)
Definition repr_hundredths (c : Z) : string :=
  let whole := (c / 100)%Z in
  let frac := (c mod 100)%Z in
  digits whole ++ "." ++
    (if (frac mod 10 =? 0)%Z then digits (frac / 10)
     else digits (frac / 10) ++ digits (frac mod 10)).

(** ['{}'.format(x)] for a float [x] with at most two decimals. *)
Definition py_repr (x : Q) : string :=
  let c := Qfloor (x * 100)%Q in
  if (c <? 0)%Z then "-" ++ repr_hundredths (- c) else repr_hundredths c.

(** ** The cloud client's types *)

Inductive AudioEncoding : Type :=
  | ENCODING_UNSPECIFIED
  | LINEAR16
  | FLAC.

(** [types.RecognitionAudio]: [RemoteRef u] is [RecognitionAudio(uri=u)],
    [LocalBytes c] is [RecognitionAudio(content=c)]. *)
Inductive RecognitionAudio : Type :=
  | RemoteRef (uri : string)
  | LocalBytes (content : list Byte.byte).

Record RecognitionConfig : Type := {
  encoding : AudioEncoding;
  sample_rate_hertz : Z;
  language_code : string
}.

(** ** Files *)

(** [io.open(path, 'rb')] followed by [read()]: the whole content, or
    [IOError] when there is no readable file at the path. *)
Definition read_binary (path : string) : M (list Byte.byte) :=
  emit (OpenRead path) ;;
  w ← get_world;
  match w_files w !! resolve (w_cwd w) path with
  | Some content => mret content
  | None => raise IOError
  end.

(** [open(name, encoding='utf-8', mode='w+')]: the file is created, or
    truncated when it exists. *)
Definition open_write (name : string) : M unit :=
  emit (OpenWrite name) ;;
  w ← get_world;
  let target := resolve (w_cwd w) name in
  if w_writable w target
  then set_files (<[target := []]> (w_files w))
  else raise IOError.

(** [f.write(transcription)] on the file opened as [name]; writing
    anything but a [str] is a [TypeError]. *)
Definition file_write (name : string) (transcription : pyval) : M unit :=
  match transcription with
  | PyStr text =>
      w ← get_world;
      set_files (<[resolve (w_cwd w) name := list_byte_of_string text]>
                   (w_files w))
  | PyNone => raise TypeError
  end.

(** ** The script *)

Definition nl : string := String (ascii_of_nat 10) EmptyString.

Definition get_audio (path : string) : M RecognitionAudio :=
  if Py.startswith "gs://" path
  then mret (RemoteRef path)
  else content ← read_binary path; mret (LocalBytes content).

Definition get_config (language : string) (rate : Z) : RecognitionConfig :=
  {| encoding := FLAC;
     sample_rate_hertz := rate;
     language_code := language |}.

Definition write_file (path language : string) (transcription : pyval)
  : M string :=
  let '(dir, ext_name) := os_path.split path in
  let '(name, _) := os_path.splitext ext_name in
  let name := name ++ "_" ++ language ++ ".txt" in
  open_write name ;;
  file_write name transcription ;;
  let new_path := os_path.join dir name in
  print ("Saved transcription to " ++ new_path) ;;
  mret new_path.

Definition get_wait_time (start_time : Q) : M string :=
  now ← time_time;
  let total_time := py_round2 (now - start_time) in
  if Qle_bool total_time 60 then
    mret (py_repr total_time ++ " seconds")
  else if Qle_bool total_time 3600 then
    let '(m, s) := py_divmod total_time 60 in
    mret (py_repr m ++ " minutes " ++ py_repr (py_round2 s) ++ " seconds")
  else
    raise UnboundLocalError.

(** [result.alternatives[0].transcript] *)
Definition first_alternative (result : segment) : M string :=
  match result with
  | transcript :: _ => mret transcript
  | [] => raise IndexError
  end.

(** [client.recognize(config, audio)] *)
Definition client_recognize (config : RecognitionConfig)
    (audio : RecognitionAudio) : M (list segment) :=
  emit Recognize ;; w ← get_world; mret (w_results w).

(** [client.long_running_recognize(config, audio)] *)
Definition client_long_running_recognize (config : RecognitionConfig)
    (audio : RecognitionAudio) : M unit :=
  emit LongRunningRecognize.

(** [operation.done()] *)
Definition operation_done : M bool :=
  fun w => (Ok (w_done w (w_polls w)), polled w).

(** [operation.result().results] *)
Definition operation_results : M (list segment) :=
  w ← get_world; mret (w_results w).

(** The loop of the short-form driver. *)
Fixpoint print_transcripts (results : list segment) : M unit :=
  match results with
  | [] => mret tt
  | result :: rest =>
      transcript ← first_alternative result;
      print ("Transcript: " ++ transcript) ;;
      print_transcripts rest
  end.

(** No [return]: the driver answers [None]. *)
Definition transcribe_short_audio_file (config : RecognitionConfig)
    (audio : RecognitionAudio) : M pyval :=
  results ← client_recognize config audio;
  print_transcripts results ;;
  mret PyNone.

Definition timeout_message : string :=
  "Operation is still running after 12 hours, exiting program".

(** The [while operation.done() is not True] loop. *)
Fixpoint poll (fuel : nat) (start_time : Q) : M unit :=
  match fuel with
  | O => out_of_fuel
  | S fuel' =>
      done ← operation_done;
      if done : bool then mret tt
      else
        now ← time_time;
        if Qlt_bool 43200 (start_time - now) then
          print timeout_message ;;
          raise SystemExit
        else
          wait ← get_wait_time start_time;
          print ("Waiting for transcription to complete, total operation time is "
                   ++ wait ++ nl) ;;
          time_sleep 120 ;;
          poll fuel' start_time
  end.

(** The loop assembling the transcript. *)
Fixpoint assemble (results : list segment) (transcription : string)
  : M string :=
  match results with
  | [] => mret transcription
  | result :: rest =>
      transcript ← first_alternative result;
      assemble rest (transcription ++ transcript ++ nl)
  end.

Definition transcribe_long_audio_file (fuel : nat)
    (config : RecognitionConfig) (audio : RecognitionAudio) : M pyval :=
  client_long_running_recognize config audio ;;
  sent ← time_ctime;
  print ("Operation sent to Google Cloud for transcription at " ++ sent ++ nl) ;;
  start_time ← time_time;
  poll fuel start_time ;;
  completed ← time_ctime;
  print ("Operation completed at " ++ completed ++ nl) ;;
  total ← get_wait_time start_time;
  print ("Total operation time was " ++ total) ;;
  results ← operation_results;
  transcription ← assemble results "";
  mret (PyStr transcription).

(** The parsed command line. *)
Inductive length_choice : Type := short | long.

Record args : Type := {
  path : string;
  language : string;
  rate : Z;
  length : length_choice
}.

Definition main (fuel : nat) (a : args) : M string :=
  audio ← get_audio (path a);
  let config := get_config (language a) (rate a) in
  transcription ←
    match length a with
    | short => transcribe_short_audio_file config audio
    | long => transcribe_long_audio_file fuel config audio
    end;
  write_file (path a) (language a) transcription.


(** ** Observations *)

(** The time since [start_time] at the next reading of the clock. *)
Definition elapsed (start_time : Q) (w : world) : Q :=
  w_clock w (w_reads w) - start_time.

(** Does the trace report the twelve-hour timeout? *)
Definition reports_timeout (trace : list event) : bool :=
  existsb (fun e => match e with
                    | Print msg => String.eqb msg timeout_message
                    | _ => false
                    end) trace.

(** A computation is quiet in a world when it neither leaves through
    [exit()] nor reports the timeout there; it leaves the clock alone and
    only consumes readings. *)
Definition quiet_at {A} (m : M A) (w : world) : Prop :=
  fst (m w) <> Raise SystemExit /\
  reports_timeout (w_trace (snd (m w))) = reports_timeout (w_trace w) /\
  w_clock (snd (m w)) = w_clock w /\
  (w_reads w <= w_reads (snd (m w)))%nat.

(** The clock has reached [start_time] and stays there. *)
Definition started (start_time : Q) (w : world) : Prop :=
  forall k, (w_reads w <= k)%nat -> (start_time <= w_clock w k)%Q.

(** The name under which [write_file] opens its file. *)
Definition output_name (path language : string) : string :=
  fst (os_path.splitext (snd (os_path.split path)))
  ++ "_" ++ language ++ ".txt".

(** The path [write_file] reports. *)
Definition reported_path (path language : string) : string :=
  os_path.join (fst (os_path.split path)) (output_name path language).

(** ** Frames *)

(** What no part of the script changes: the working directory, the
    permissions, the clock and the recognition service. *)
Definition same_env (w w' : world) : Prop :=
  w_cwd w' = w_cwd w /\ w_writable w' = w_writable w /\
  w_clock w' = w_clock w /\ w_ctime w' = w_ctime w /\
  w_done w' = w_done w /\ w_results w' = w_results w.

(** The same, and the file system too. *)
Definition same_files (w w' : world) : Prop :=
  same_env w w' /\ w_files w' = w_files w.

(** The trace has grown by events that all satisfy [P]. *)
Definition emits_only (P : event -> Prop) (w w' : world) : Prop :=
  exists evs, w_trace w' = (w_trace w ++ evs)%list /\ Forall P evs.

(** A computation keeps [R] when its final world is related by [R] to the
    world it starts in, however it ends. *)
Definition keeps (R : world -> world -> Prop) {A} (m : M A) : Prop :=
  forall w, R w (snd (m w)).

(** The line printed in each round of the polling loop. *)
Definition waiting (text : string) : string :=
  "Waiting for transcription to complete, total operation time is "
  ++ text ++ nl.

(** The events of [rounds] rounds of the polling loop. *)
Definition round_events (texts : list string) : list event :=
  flat_map (fun text => [Print (waiting text); Sleep 120]) texts.

(** The line the short-form driver prints for a segment. *)
Definition transcript_line (result : segment) : event :=
  Print ("Transcript: " ++ hd "" result).

(** Is the event the line by which the writer reports a saved file? *)
Definition is_saved_line (e : event) : bool :=
  match e with
  | Print msg => Py.startswith "Saved transcription to " msg
  | _ => false
  end.

(** The events a run in the given mode has no business with: the
    long-running call and the sleeps in short-form mode, the synchronous
    call in long-form mode. *)
Definition foreign_to (mode : length_choice) (e : event) : bool :=
  match mode, e with
  | short, LongRunningRecognize => true
  | short, Sleep _ => true
  | long, Recognize => true
  | _, _ => false
  end.

(** The world after a list of events. *)
Definition add_events (evs : list event) (w : world) : world :=
  fold_left (fun w e => add_event e w) evs w.

(** No character of the string is a slash. *)
Fixpoint no_slash (s : string) : bool :=
  match s with
  | EmptyString => true
  | String a rest => negb (Ascii.eqb a "/") && no_slash rest
  end.

(** ** Sample worlds *)

Module Sample.

(** A clock that stands at 0 while the job is sent and then advances by
    the 120 seconds slept between two polls: readings 0 and 1 are taken
    before the loop, readings [2i+2] and [2i+3] in its [i]-th round. *)
Definition steady_clock (k : nat) : Q :=
  inject_Z (120 * Z.of_nat ((k - 2) / 2)).

Definition ctime (t : Q) : string := "Thu Jan  1 00:00:00 1970".

(** A process in [/home/user] with one audio file in [/tmp]; the job is
    done from its [n]-th answer on, if ever. *)
Definition world_of (clock : nat -> Q) (done : nat -> bool)
    (results : list segment) : world :=
  {| w_cwd := "/home/user";
     w_files := {[ "/tmp/clip.wav" := [Byte.x66; Byte.x4c; Byte.x61; Byte.x43] ]};
     w_writable := fun _ => true;
     w_clock := clock;
     w_reads := 0;
     w_ctime := ctime;
     w_done := done;
     w_polls := 0;
     w_results := results;
     w_trace := [] |}.

Definition never_done (k : nat) : bool := false.
Definition done_at (n : nat) (k : nat) : bool := Nat.leb n k.

Definition hello_world : list segment := [["hello"; "hullo"]; ["world"]].

Definition idle : world := world_of steady_clock (done_at 0) hello_world.

(** The world in which the clock reads [t] next. *)
Definition at_time (t : Q) : world :=
  world_of (fun _ => t) never_done [].

(** A clock that stands at 0 while the job is sent and shows twelve hours
    and one second at every later reading. *)
Definition late_clock (k : nat) : Q :=
  if Nat.leb k 1 then 0 else 43201.

(** A job that never completes. *)
Definition stuck : world := world_of steady_clock never_done hello_world.
Definition stuck_late : world := world_of late_clock never_done hello_world.

(** A job that is complete at the first poll and recognised nothing. *)
Definition silent : world := world_of steady_clock (done_at 0) [].

(** A job that is complete at its third answer. *)
Definition slow : world := world_of steady_clock (done_at 2) hello_world.

(** A job whose second segment has no alternative. *)
Definition broken : world :=
  world_of steady_clock (done_at 0) [["hello"]; []; ["world"]].

(** A process that may not write anywhere. *)
Definition read_only : world :=
  {| w_cwd := "/home/user";
     w_files := {[ "/tmp/clip.wav" := [Byte.x66; Byte.x4c; Byte.x61; Byte.x43] ]};
     w_writable := fun _ => false;
     w_clock := steady_clock;
     w_reads := 0;
     w_ctime := ctime;
     w_done := done_at 0;
     w_polls := 0;
     w_results := hello_world;
     w_trace := [] |}.

Definition long_run : args :=
  {| path := "/tmp/clip.wav"; language := "en-US"; rate := 44100;
     length := long |}.
Definition missing_run : args :=
  {| path := "/tmp/absent.flac"; language := "en-US"; rate := 44100;
     length := long |}.
Definition short_run : args :=
  {| path := "/tmp/clip.wav"; language := "en-US"; rate := 44100;
     length := short |}.

End Sample.

(** ** What the spec says of the transcript *)

(** The first alternatives, each followed by a newline. *)
Fixpoint transcript_of (firsts : list string) : string :=
  match firsts with
  | [] => ""
  | first :: rest => first ++ nl ++ transcript_of rest
  end.

(** * Properties *)

Ltac run :=
  unfold mbind, M_bind, bind, mret, M_ret, ret, raise, emit, set_files,
    get_world, print, time_time, time_sleep, out_of_fuel in *;
  cbn [fst snd] in *.

(** ** Prefixes *)

Lemma startswith_app (p rest : string) : Py.startswith p (p ++ rest) = true.
Proof.
  induction p as [|a p IH]; simpl; [reflexivity|].
  now rewrite Ascii.eqb_refl.
Qed.

Lemma startswith_inv (p s : string) :
  Py.startswith p s = true -> exists rest, s = p ++ rest.
Proof.
  revert s. induction p as [|a p IH]; intros s H; simpl in *.
  - now exists s.
  - destruct s as [|b s]; [discriminate|].
    apply andb_prop in H as [Hab H]. apply Ascii.eqb_eq in Hab as ->.
    destruct (IH s H) as [rest ->]. now exists rest.
Qed.

Lemma not_startswith (p s : string) :
  (forall rest, s <> p ++ rest) -> Py.startswith p s = false.
Proof.
  intros H. destruct (Py.startswith p s) eqn:E; [|reflexivity].
  destruct (startswith_inv p s E) as [rest ->]. now destruct (H rest).
Qed.

(** ** The Audio Loader *)

Lemma get_audio_local (path : string) (w : world) :
  Py.startswith "gs://" path = false ->
  get_audio path w =
    match w_files w !! resolve (w_cwd w) path with
    | Some content => (Ok (LocalBytes content), add_event (OpenRead path) w)
    | None => (Raise IOError, add_event (OpenRead path) w)
    end.
Proof.
  intros H. unfold get_audio, read_binary. rewrite H. run.
  change (w_files (add_event (OpenRead path) w)) with (w_files w).
  change (w_cwd (add_event (OpenRead path) w)) with (w_cwd w).
  now destruct (w_files w !! resolve (w_cwd w) path).
Qed.

(** C6. A path that starts with [gs://] becomes a remote reference
    carrying the path itself as its URI, and the world is left as it was:
    no file is opened or read, nothing is looked up in the file system and
    no event is recorded. *)
Theorem get_audio_remote (rest : string) (w : world) :
  get_audio ("gs://" ++ rest) w = (Ok (RemoteRef ("gs://" ++ rest)), w).
Proof.
  unfold get_audio. now rewrite startswith_app.
Qed.

(** C7. A path that does not start with [gs://] is opened once for binary
    reading; when the file is there the payload is [LocalBytes] of exactly
    its content, when it is not the loader fails with [IOError] after that
    single attempt, and in no case is the answer a remote reference. *)
Theorem get_audio_local_file (path : string) (w : world) :
  Py.startswith "gs://" path = false ->
  (forall content,
      w_files w !! resolve (w_cwd w) path = Some content ->
      get_audio path w =
        (Ok (LocalBytes content), add_event (OpenRead path) w)) /\
  (w_files w !! resolve (w_cwd w) path = None ->
   get_audio path w = (Raise IOError, add_event (OpenRead path) w)) /\
  (forall uri, fst (get_audio path w) <> Ok (RemoteRef uri)) /\
  w_trace (snd (get_audio path w)) = (w_trace w ++ [OpenRead path])%list.
Proof.
  intros H. rewrite (get_audio_local path w H).
  destruct (w_files w !! resolve (w_cwd w) path) as [content|];
    repeat split; try discriminate; try congruence.
Qed.

Lemma get_audio_local_file_witness :
  Py.startswith "gs://" "/tmp/clip.wav" = false /\
  w_files Sample.idle !! resolve (w_cwd Sample.idle) "/tmp/clip.wav"
  = Some [Byte.x66; Byte.x4c; Byte.x61; Byte.x43] /\
  get_audio "/tmp/clip.wav" Sample.idle =
    (Ok (LocalBytes [Byte.x66; Byte.x4c; Byte.x61; Byte.x43]),
     add_event (OpenRead "/tmp/clip.wav") Sample.idle).
Proof.
  assert (H : Py.startswith "gs://" "/tmp/clip.wav" = false)
    by reflexivity.
  assert (F : w_files Sample.idle !! resolve (w_cwd Sample.idle) "/tmp/clip.wav"
              = Some [Byte.x66; Byte.x4c; Byte.x61; Byte.x43])
    by (vm_compute; reflexivity).
  split; [exact H|]. split; [exact F|].
  exact (proj1 (get_audio_local_file "/tmp/clip.wav" Sample.idle H) _ F).
Defined.

(** C9. The test for the remote prefix is a literal one: a path that is
    not [gs://] followed by something, such as [GS://bucket/clip.flac],
    is opened for binary reading as a local file and never becomes a
    remote reference. *)
Theorem get_audio_prefix_is_literal (path : string) (w : world) :
  (forall rest, path <> "gs://" ++ rest) ->
  w_trace (snd (get_audio path w)) = (w_trace w ++ [OpenRead path])%list /\
  (forall uri, fst (get_audio path w) <> Ok (RemoteRef uri)) /\
  fst (get_audio path w) =
    match w_files w !! resolve (w_cwd w) path with
    | Some content => Ok (LocalBytes content)
    | None => Raise IOError
    end.
Proof.
  intros H. apply not_startswith in H.
  rewrite (get_audio_local path w H).
  destruct (w_files w !! resolve (w_cwd w) path);
    repeat split; discriminate.
Qed.

Lemma get_audio_prefix_is_literal_witness :
  (forall rest, "GS://bucket/clip.flac" <> "gs://" ++ rest) /\
  w_trace (snd (get_audio "GS://bucket/clip.flac" Sample.idle))
  = (w_trace Sample.idle ++ [OpenRead "GS://bucket/clip.flac"])%list.
Proof.
  assert (H : forall rest, "GS://bucket/clip.flac" <> "gs://" ++ rest)
    by (intros rest E; discriminate E).
  split; [exact H|].
  exact (proj1 (get_audio_prefix_is_literal "GS://bucket/clip.flac"
                  Sample.idle H)).
Defined.

(** ** Assembling the transcript *)

Lemma append_assoc (a b c : string) : (a ++ b) ++ c = a ++ (b ++ c).
Proof.
  induction a as [|x a IH]; [reflexivity|].
  change (String x ((a ++ b) ++ c) = String x (a ++ (b ++ c))).
  now rewrite IH.
Qed.

Lemma append_nil_r (a : string) : a ++ "" = a.
Proof.
  induction a as [|x a IH]; [reflexivity|].
  change (String x (a ++ "") = String x a). now rewrite IH.
Qed.

Lemma assemble_from (results : list segment) (acc : string) (w : world) :
  Forall (fun result => result <> []) results ->
  assemble results acc w =
    (Ok (acc ++ transcript_of (map (hd "") results)), w).
Proof.
  intros H. revert acc.
  induction H as [|result rest Hne _ IH]; intros acc; simpl.
  - now rewrite append_nil_r.
  - destruct result as [|first others]; [now destruct Hne|].
    simpl. run. rewrite IH. now rewrite !append_assoc.
Qed.

(** C8. For a result sequence in which every segment has a first
    alternative, the assembled transcript is these first alternatives in
    order, each followed by a newline; for the segments "hello" and
    "world" it is "hello", newline, "world", newline. *)
Theorem assemble_transcript (results : list segment) (w : world) :
  Forall (fun result => result <> []) results ->
  assemble results "" w = (Ok (transcript_of (map (hd "") results)), w) /\
  assemble [["hello"]; ["world"]] "" w =
    (Ok ("hello" ++ nl ++ "world" ++ nl), w).
Proof.
  intros H. split.
  - now rewrite assemble_from.
  - reflexivity.
Qed.

Lemma assemble_transcript_witness :
  Forall (fun result : segment => result <> []) Sample.hello_world /\
  assemble Sample.hello_world "" Sample.idle =
    (Ok (transcript_of (map (hd "") Sample.hello_world)), Sample.idle).
Proof.
  assert (H : Forall (fun result : segment => result <> [])
                Sample.hello_world)
    by (repeat constructor; discriminate).
  split; [exact H|].
  exact (proj1 (assemble_transcript Sample.hello_world Sample.idle H)).
Defined.

(** ** Rounding to hundredths *)

#[export] Instance round_half_even_comp :
  Proper (Qeq ==> eq) round_half_even.
Proof.
  intros x y E. unfold round_half_even.
  rewrite (Qfloor_comp x y E).
  assert (C : (x - inject_Z (Qfloor y) ?= 1 # 2)%Q
              = (y - inject_Z (Qfloor y) ?= 1 # 2)%Q)
    by now rewrite E.
  now rewrite C.
Qed.

#[export] Instance py_round2_comp : Proper (Qeq ==> Qeq) py_round2.
Proof.
  intros x y E. unfold py_round2.
  assert (E' : (x * 100 == y * 100)%Q) by now rewrite E.
  now rewrite (round_half_even_comp _ _ E').
Qed.

Lemma round_half_even_Z (k : Z) : round_half_even (inject_Z k) = k.
Proof.
  unfold round_half_even. rewrite Qfloor_Z.
  assert (C : (inject_Z k - inject_Z k ?= 1 # 2)%Q = Lt).
  { apply (proj1 (Qlt_alt _ _)). lra. }
  now rewrite C.
Qed.

Lemma round_half_even_near (x : Q) :
  (x - (1 # 2) <= inject_Z (round_half_even x) <= x + (1 # 2))%Q.
Proof.
  unfold round_half_even.
  pose proof (Qfloor_le x) as Hlo. pose proof (Qlt_floor x) as Hhi.
  rewrite inject_Z_plus in Hhi. change (inject_Z 1) with 1%Q in Hhi.
  destruct (x - inject_Z (Qfloor x) ?= 1 # 2)%Q eqn:C.
  - apply (proj2 (Qeq_alt _ _)) in C.
    destruct (Z.even (Qfloor x)); [|rewrite inject_Z_plus;
      change (inject_Z 1) with 1%Q]; lra.
  - apply (proj2 (Qlt_alt _ _)) in C. lra.
  - apply (proj2 (Qgt_alt _ _)) in C. rewrite inject_Z_plus.
    change (inject_Z 1) with 1%Q. lra.
Qed.

Lemma hundredths (c : Z) : (c # 100 == inject_Z c * (1 # 100))%Q.
Proof.
  unfold Qeq, Qmult, inject_Z. simpl. lia.
Qed.

(** [round(x, 2)] is within half a hundredth of [x]. *)
Lemma py_round2_near (x : Q) :
  (x - (1 # 200) <= py_round2 x <= x + (1 # 200))%Q.
Proof.
  unfold py_round2. rewrite hundredths.
  pose proof (round_half_even_near (x * 100)). lra.
Qed.

(** A number of hundredths is left as it is. *)
Lemma py_round2_hundredths (x : Q) (c : Z) :
  (x == c # 100)%Q -> (py_round2 x == x)%Q.
Proof.
  intros E. rewrite E at 2. unfold py_round2.
  assert (E' : (x * 100 == inject_Z c)%Q) by (rewrite E, hundredths; lra).
  now rewrite (round_half_even_comp _ _ E'), round_half_even_Z.
Qed.

(** ** The elapsed-time formatter *)

Lemma get_wait_time_eq (start_time : Q) (w : world) :
  get_wait_time start_time w =
    (let total_time := py_round2 (elapsed start_time w) in
     if Qle_bool total_time 60 then
       Ok (py_repr total_time ++ " seconds")
     else if Qle_bool total_time 3600 then
       Ok (py_repr (fst (py_divmod total_time 60)) ++ " minutes " ++
           py_repr (py_round2 (snd (py_divmod total_time 60))) ++ " seconds")
     else Raise UnboundLocalError,
     tick w).
Proof.
  unfold get_wait_time, elapsed. run. cbv zeta.
  destruct (Qle_bool _ 60); [reflexivity|].
  destruct (Qle_bool _ 3600); reflexivity.
Qed.

Lemma Qle_bool_false (x y : Q) : (y < x)%Q -> Qle_bool x y = false.
Proof.
  intros H. destruct (Qle_bool x y) eqn:E; [|reflexivity].
  apply Qle_bool_iff in E. lra.
Qed.

Lemma Qle_bool_true (x y : Q) : (x <= y)%Q -> Qle_bool x y = true.
Proof. intros H. now apply Qle_bool_iff. Qed.

(** Every duration above 3600.005 seconds rounds to more than 3600. *)
Lemma round_above_hour (x : Q) :
  (3600 + (1 # 200) < x)%Q -> (3600 < py_round2 x)%Q.
Proof. intros H. pose proof (py_round2_near x). lra. Qed.

(** The claim C4 as the spec words it fails: a duration just above one
    hour rounds to 3600.0, the second guard applies and a string comes
    back. *)
Lemma get_wait_time_beyond_hour_counterexample :
  (3600 < elapsed 0 (Sample.at_time (921601 # 256)))%Q /\
  fst (get_wait_time 0 (Sample.at_time (921601 # 256)))
  = Ok "60.0 minutes 0.0 seconds".
Proof. split; reflexivity. Qed.

(** C4, amended. When the elapsed time rounded to two decimals is above
    3600 seconds, neither guard applies and the formatter fails with
    [UnboundLocalError] instead of returning a string. *)
Theorem get_wait_time_beyond_hour (start_time : Q) (w : world) :
  (3600 < py_round2 (elapsed start_time w))%Q ->
  get_wait_time start_time w = (Raise UnboundLocalError, tick w).
Proof.
  intros H. rewrite get_wait_time_eq. cbv zeta.
  rewrite Qle_bool_false by lra. rewrite Qle_bool_false by lra.
  reflexivity.
Qed.

Lemma get_wait_time_beyond_hour_witness :
  (3600 < py_round2 (elapsed 0 (Sample.at_time 3720)))%Q /\
  get_wait_time 0 (Sample.at_time 3720)
  = (Raise UnboundLocalError, tick (Sample.at_time 3720)).
Proof.
  assert (H : (3600 < py_round2 (elapsed 0 (Sample.at_time 3720)))%Q)
    by (vm_compute; reflexivity).
  split; [exact H|].
  exact (get_wait_time_beyond_hour 0%Q (Sample.at_time 3720) H).
Defined.

Lemma length_append (a b : string) :
  String.length (a ++ b) = (String.length a + String.length b)%nat.
Proof.
  induction a as [|x a IH]; [reflexivity|].
  change (S (String.length (a ++ b))
          = S (String.length a + String.length b)).
  now rewrite IH.
Qed.

(** The claim C5 as the spec words it fails: a duration just above one
    minute rounds to 60.0, the first guard applies and the seconds form
    comes back, which is no "M minutes S seconds". *)
Lemma get_wait_time_format_counterexample :
  (60 < elapsed 0 (Sample.at_time (15361 # 256)))%Q /\
  (elapsed 0 (Sample.at_time (15361 # 256)) <= 3600)%Q /\
  fst (get_wait_time 0 (Sample.at_time (15361 # 256))) = Ok "60.0 seconds" /\
  forall M S : string,
    fst (get_wait_time 0 (Sample.at_time (15361 # 256)))
    <> Ok (M ++ " minutes " ++ S ++ " seconds").
Proof.
  assert (E : fst (get_wait_time 0 (Sample.at_time (15361 # 256)))
              = Ok "60.0 seconds") by (vm_compute; reflexivity).
  split; [vm_compute; reflexivity|].
  split; [vm_compute; discriminate|]. split; [exact E|].
  intros M S H. rewrite E in H.
  assert (L : String.length "60.0 seconds"
              = String.length (M ++ " minutes " ++ S ++ " seconds"))
    by congruence.
  rewrite !length_append in L. simpl in L. lia.
Qed.

Lemma divmod_60 (total : Q) :
  let m := inject_Z (Qfloor (total / 60)) in
  let s := (total - m * 60)%Q in
  (m * 60 <= total)%Q /\ (total < (m + 1) * 60)%Q /\
  (0 <= s)%Q /\ (s < 60)%Q.
Proof.
  cbv zeta.
  pose proof (Qfloor_le (total / 60)) as Hlo.
  pose proof (Qlt_floor (total / 60)) as Hhi.
  rewrite inject_Z_plus in Hhi. change (inject_Z 1) with 1%Q in Hhi.
  assert (E : (total == total / 60 * 60)%Q) by (field; discriminate).
  set (q := (total / 60)%Q) in *. clearbody q.
  set (m := inject_Z (Qfloor q)) in *. clearbody m.
  repeat split; lra.
Qed.

Lemma remainder_hundredths (c k : Z) :
  ((c # 100) - inject_Z k * 60 == (c - 6000 * k) # 100)%Q.
Proof.
  unfold Qeq, Qminus, Qplus, Qmult, Qopp, inject_Z. simpl. lia.
Qed.

(** C5, amended. The guards are applied to the elapsed time rounded to
    two decimals: when that is at most 60 the answer is "N seconds" with N
    the rounded time, when it is above 60 and at most 3600 the answer is
    "M minutes S seconds" with M the whole minutes by floor division and S
    the remaining seconds rounded to two decimals.  45.0 gives
    "45.0 seconds", 125.0 gives "2.0 minutes 5.0 seconds" and 60.0 gives
    "60.0 seconds". *)
Theorem get_wait_time_format :
  (forall (start_time : Q) (w : world),
      let total := py_round2 (elapsed start_time w) in
      (0 <= elapsed start_time w)%Q ->
      (elapsed start_time w - (1 # 200) <= total
       /\ total <= elapsed start_time w + (1 # 200))%Q /\
      ((total <= 60)%Q ->
       get_wait_time start_time w
       = (Ok (py_repr total ++ " seconds"), tick w)) /\
      ((60 < total)%Q -> (total <= 3600)%Q ->
       let m := inject_Z (Qfloor (total / 60)) in
       let s := (total - m * 60)%Q in
       get_wait_time start_time w
       = (Ok (py_repr m ++ " minutes " ++ py_repr (py_round2 s)
                ++ " seconds"), tick w) /\
       (m * 60 <= total)%Q /\ (total < (m + 1) * 60)%Q /\
       (0 <= s)%Q /\ (s < 60)%Q /\ (py_round2 s == s)%Q)) /\
  fst (get_wait_time 0 (Sample.at_time 45)) = Ok "45.0 seconds" /\
  fst (get_wait_time 0 (Sample.at_time 125)) = Ok "2.0 minutes 5.0 seconds" /\
  fst (get_wait_time 0 (Sample.at_time 60)) = Ok "60.0 seconds".
Proof.
  split; [|repeat split; vm_compute; reflexivity].
  intros start_time w total Hpos.
  split; [apply py_round2_near|]. split.
  - intros H. rewrite get_wait_time_eq. cbv zeta. fold total.
    now rewrite Qle_bool_true.
  - intros Hlo Hhi m s.
    split; [|pose proof (divmod_60 total) as D; cbv zeta in D;
             fold m in D; fold s in D; repeat split; try apply D].
    + rewrite get_wait_time_eq. cbv zeta. fold total.
      rewrite Qle_bool_false by assumption.
      now rewrite Qle_bool_true by assumption.
    + apply (py_round2_hundredths s
               (round_half_even (elapsed start_time w * 100)
                - 6000 * Qfloor (total / 60))).
      unfold s, m. apply remainder_hundredths.
Qed.

Lemma get_wait_time_format_witness :
  (0 <= elapsed 0 (Sample.at_time 125))%Q /\
  (60 < py_round2 (elapsed 0 (Sample.at_time 125)))%Q /\
  (py_round2 (elapsed 0 (Sample.at_time 125)) <= 3600)%Q /\
  get_wait_time 0 (Sample.at_time 125)
  = (Ok (py_repr (inject_Z (Qfloor (py_round2 (elapsed 0 (Sample.at_time 125)) / 60)))
         ++ " minutes "
         ++ py_repr (py_round2
                       (py_round2 (elapsed 0 (Sample.at_time 125))
                        - inject_Z (Qfloor (py_round2 (elapsed 0 (Sample.at_time 125)) / 60)) * 60))
         ++ " seconds"),
     tick (Sample.at_time 125)).
Proof.
  assert (H0 : (0 <= elapsed 0 (Sample.at_time 125))%Q)
    by (vm_compute; discriminate).
  assert (H1 : (60 < py_round2 (elapsed 0 (Sample.at_time 125)))%Q)
    by (vm_compute; reflexivity).
  assert (H2 : (py_round2 (elapsed 0 (Sample.at_time 125)) <= 3600)%Q)
    by (vm_compute; discriminate).
  split; [exact H0|]. split; [exact H1|]. split; [exact H2|].
  destruct (proj1 get_wait_time_format 0%Q (Sample.at_time 125) H0)
    as (_ & _ & H).
  exact (proj1 (H H1 H2)).
Defined.

(** ** The Output Writer *)

Lemma write_file_eq (path language : string) (transcription : pyval) :
  write_file path language transcription =
    (open_write (output_name path language) ;;
     file_write (output_name path language) transcription ;;
     print ("Saved transcription to " ++ reported_path path language) ;;
     mret (reported_path path language)).
Proof.
  unfold write_file, reported_path, output_name.
  destruct (os_path.split path) as [dir ext_name]. cbn [fst snd].
  destruct (os_path.splitext ext_name) as [name ext]. reflexivity.
Qed.

(** What the writer does with a text: the file it fills is the output
    name resolved against the working directory, whatever the directory
    of the input; the path it reports is the output name joined to the
    directory of the input. *)
Lemma write_file_text (path language text : string) (w : world) :
  let target := resolve (w_cwd w) (output_name path language) in
  w_writable w target = true ->
  write_file path language (PyStr text) w =
    (Ok (reported_path path language),
     add_event (Print ("Saved transcription to "
                         ++ reported_path path language))
       (with_files (<[target := list_byte_of_string text]>
                      (<[target := []]> (w_files w)))
          (add_event (OpenWrite (output_name path language)) w))).
Proof.
  intros target H. rewrite (write_file_eq path language (PyStr text)).
  unfold open_write, file_write. run.
  change (w_cwd (add_event _ w)) with (w_cwd w).
  change (w_writable (add_event _ w)) with (w_writable w).
  fold target. rewrite H. reflexivity.
Qed.

(** C2 at the input of the spec, run from [/home/user]: the transcript
    lands in [/home/user/clip_en-US.txt], the reported
    [/tmp/clip_en-US.txt] is not created. *)
Theorem write_file_misses_directory :
  let r := write_file "/tmp/clip.wav" "en-US" (PyStr "hello") Sample.idle in
  fst r = Ok "/tmp/clip_en-US.txt" /\
  w_trace (snd r) =
    [OpenWrite "clip_en-US.txt";
     Print "Saved transcription to /tmp/clip_en-US.txt"] /\
  w_files (snd r) !! "/home/user/clip_en-US.txt"
  = Some (list_byte_of_string "hello") /\
  w_files (snd r) !! "/tmp/clip_en-US.txt" = None.
Proof. vm_compute. repeat split. Qed.

(** ** The polling loop *)

Lemma reports_timeout_app (t1 t2 : list event) :
  reports_timeout (t1 ++ t2) = reports_timeout t1 || reports_timeout t2.
Proof. apply existsb_app. Qed.

(** The guard of the loop compares [start_time - now] with twelve hours:
    it is never met once the clock has reached [start_time]. *)
Lemma timeout_guard_false (start_time now : Q) :
  (start_time <= now)%Q -> Qlt_bool 43200 (start_time - now) = false.
Proof.
  intros H. unfold Qlt_bool. rewrite Qle_bool_true; [reflexivity | lra].
Qed.

Lemma quiet_bind {A B} (m : M A) (k : A -> M B) (w : world) :
  quiet_at m w ->
  (forall a, fst (m w) = Ok a -> quiet_at (k a) (snd (m w))) ->
  quiet_at (m ≫= k) w.
Proof.
  unfold quiet_at, mbind, M_bind, bind.
  destruct (m w) as [[a|e|] w']; cbn [fst snd]; intros (H1 & H2 & H3 & H4) Hk.
  - destruct (Hk a eq_refl) as (K1 & K2 & K3 & K4).
    repeat split; [assumption | congruence | congruence | lia].
  - split; [intros [= ->]; now apply H1 | repeat split; assumption].
  - split; [discriminate | repeat split; assumption].
Qed.

Lemma quiet_ret {A} (a : A) (w : world) : quiet_at (mret a) w.
Proof. unfold quiet_at. run. repeat split; [discriminate | lia]. Qed.

Lemma quiet_emit (e : event) (w : world) :
  reports_timeout [e] = false -> quiet_at (emit e) w.
Proof.
  intros H. unfold quiet_at, emit. cbn [fst snd add_event w_trace].
  rewrite reports_timeout_app, H, orb_false_r.
  repeat split; [discriminate | simpl; lia].
Qed.

Lemma quiet_time_time (w : world) : quiet_at time_time w.
Proof.
  unfold quiet_at, time_time. cbn.
  repeat split; [discriminate | lia].
Qed.

Lemma quiet_get_world (w : world) : quiet_at get_world w.
Proof.
  unfold quiet_at, get_world. cbn. repeat split; [discriminate | lia].
Qed.

Lemma quiet_get_wait_time (start_time : Q) (w : world) :
  quiet_at (get_wait_time start_time) w.
Proof.
  unfold quiet_at. rewrite get_wait_time_eq. cbv zeta. cbn [fst snd].
  repeat split; [|simpl; lia].
  destruct (Qle_bool _ 60); [discriminate|].
  destruct (Qle_bool _ 3600); discriminate.
Qed.

Lemma quiet_assemble (results : list segment) (acc : string) (w : world) :
  quiet_at (assemble results acc) w.
Proof.
  revert acc. induction results as [|result rest IH]; intros acc; simpl.
  - apply quiet_ret.
  - apply quiet_bind.
    + destruct result; [|apply quiet_ret].
      unfold quiet_at. cbn. repeat split; [discriminate | lia].
    + intros first Hfirst.
      destruct result; [discriminate|]. apply IH.
Qed.

Lemma started_later (start_time : Q) (w w' : world) :
  started start_time w ->
  w_clock w' = w_clock w -> (w_reads w <= w_reads w')%nat ->
  started start_time w'.
Proof.
  intros H Hc Hr k Hk. rewrite Hc. apply H. lia.
Qed.

(** With a clock that has reached [start_time], the loop never leaves
    through [exit()] and never reports the timeout, however long the job
    stays unfinished. *)
Lemma poll_never_exits (fuel : nat) (start_time : Q) (w : world) :
  started start_time w -> quiet_at (poll fuel start_time) w.
Proof.
  revert w. induction fuel as [|fuel IH]; intros w Hclock.
  - unfold quiet_at. cbn. repeat split; [discriminate | lia].
  - simpl. apply quiet_bind.
    { unfold quiet_at, operation_done. cbn.
      repeat split; [discriminate | lia]. }
    intros done _. destruct done; [apply quiet_ret|].
    change (snd (operation_done w)) with (polled w).
    apply quiet_bind; [apply quiet_time_time|].
    intros now [= <-].
    rewrite timeout_guard_false by (apply Hclock; simpl; lia).
    change (snd (time_time (polled w))) with (tick (polled w)).
    apply quiet_bind; [apply quiet_get_wait_time|].
    intros wait Hwait.
    apply quiet_bind; [now apply quiet_emit|]. intros _ _.
    apply quiet_bind; [now apply quiet_emit|]. intros _ _.
    apply IH.
    rewrite get_wait_time_eq. cbn [snd].
    eapply started_later; [exact Hclock | reflexivity | simpl; lia].
Qed.

(** The long-form driver under a clock that never runs backwards: it
    never leaves through [exit()] and never reports the timeout. *)
Lemma long_driver_never_times_out (fuel : nat) (config : RecognitionConfig)
    (audio : RecognitionAudio) (w : world) :
  (forall i j, (i <= j)%nat -> (w_clock w i <= w_clock w j)%Q) ->
  quiet_at (transcribe_long_audio_file fuel config audio) w.
Proof.
  intros Hmono. unfold transcribe_long_audio_file.
  apply quiet_bind; [now apply quiet_emit|]. intros _ _.
  apply quiet_bind.
  { apply quiet_bind; [apply quiet_time_time|]. intros t _.
    apply quiet_bind; [apply quiet_get_world | intros; apply quiet_ret]. }
  intros sent _.
  apply quiet_bind; [now apply quiet_emit|]. intros _ _.
  apply quiet_bind; [apply quiet_time_time|]. intros start_time [= <-].
  apply quiet_bind.
  { apply poll_never_exits. intros k Hk.
    apply Hmono. simpl in Hk. simpl. lia. }
  intros _ _.
  apply quiet_bind.
  { apply quiet_bind; [apply quiet_time_time|]. intros t _.
    apply quiet_bind; [apply quiet_get_world | intros; apply quiet_ret]. }
  intros completed _.
  apply quiet_bind; [now apply quiet_emit|]. intros _ _.
  apply quiet_bind; [apply quiet_get_wait_time|]. intros total _.
  apply quiet_bind; [now apply quiet_emit|]. intros _ _.
  apply quiet_bind.
  { apply quiet_bind; [apply quiet_get_world | intros; apply quiet_ret]. }
  intros results _.
  apply quiet_bind; [apply quiet_assemble | intros; apply quiet_ret].
Qed.

Lemma bind_ok {A B} (m : M A) (k : A -> M B) (w w' : world) (a : A) :
  m w = (Ok a, w') -> (m ≫= k) w = k a w'.
Proof. intros H. unfold mbind, M_bind, bind. now rewrite H. Qed.

Lemma poll_done (fuel : nat) (start_time : Q) (w : world) :
  w_done w (w_polls w) = true ->
  poll (S fuel) start_time w = (Ok tt, polled w).
Proof.
  intros H. simpl. erewrite bind_ok by reflexivity. now rewrite H.
Qed.

Lemma get_wait_time_within_hour (start_time : Q) (w : world) :
  (py_round2 (elapsed start_time w) <= 3600)%Q ->
  exists text, get_wait_time start_time w = (Ok text, tick w).
Proof.
  intros H. rewrite get_wait_time_eq. cbv zeta.
  destruct (Qle_bool _ 60); [eauto|].
  rewrite (Qle_bool_true _ _ H). eauto.
Qed.

(** The loop in its place: when the job is complete at the first poll and
    the total time stays within the hour, the driver returns the first
    alternatives of the service's segments, each followed by a newline. *)
Lemma long_driver_transcript (fuel : nat) (config : RecognitionConfig)
    (audio : RecognitionAudio) (w : world) :
  w_done w (w_polls w) = true ->
  (py_round2 (w_clock w (3 + w_reads w) - w_clock w (1 + w_reads w))
   <= 3600)%Q ->
  Forall (fun result => result <> []) (w_results w) ->
  fst (transcribe_long_audio_file (S fuel) config audio w)
  = Ok (PyStr (transcript_of (map (hd "") (w_results w)))).
Proof.
  intros Hdone Htotal Hresults.
  unfold transcribe_long_audio_file, client_long_running_recognize,
    time_ctime, operation_results, print.
  do 4 (erewrite bind_ok by reflexivity).
  erewrite bind_ok by (apply poll_done; exact Hdone).
  do 2 (erewrite bind_ok by reflexivity).
  match goal with
  | |- context [(get_wait_time ?t ≫= _) ?w0] =>
      destruct (get_wait_time_within_hour t w0 Htotal) as [text Hwait]
  end.
  erewrite bind_ok by exact Hwait.
  do 2 (erewrite bind_ok by reflexivity).
  erewrite bind_ok by (apply assemble_from; exact Hresults).
  reflexivity.
Qed.

(** C1 on a job that never completes.  With a clock advancing by the 120
    seconds slept per round the timeout is never reported: the run dies of
    [UnboundLocalError] in the formatter at the first poll past one hour,
    3720 seconds after submission.  With a clock already twelve hours and
    a second past submission at the first poll the guard is not met
    either, and the run dies the same way without reporting the timeout. *)
Theorem poll_misses_timeout :
  let r := main 100 Sample.long_run Sample.stuck in
  let r' := main 100 Sample.long_run Sample.stuck_late in
  (fst r = Raise UnboundLocalError /\
   reports_timeout (w_trace (snd r)) = false /\
   (w_clock (snd r) (w_reads (snd r) - 1) == 3720)%Q /\
   map_to_list (w_files (snd r)) = map_to_list (w_files Sample.stuck)) /\
  ((43200 < Sample.late_clock 2 - Sample.late_clock 1)%Q /\
   Qlt_bool 43200 (Sample.late_clock 1 - Sample.late_clock 2) = false /\
   fst r' = Raise UnboundLocalError /\
   reports_timeout (w_trace (snd r')) = false /\
   map_to_list (w_files (snd r'))
   = map_to_list (w_files Sample.stuck_late)).
Proof. vm_compute. repeat split. Qed.

(** ** The short-form driver *)

(** The short-form driver has no [return]: whenever it comes back, it
    comes back with [None]. *)
Lemma short_driver_returns_none (config : RecognitionConfig)
    (audio : RecognitionAudio) (w w' : world) (v : pyval) :
  transcribe_short_audio_file config audio w = (Ok v, w') -> v = PyNone.
Proof.
  unfold transcribe_short_audio_file, client_recognize. run.
  destruct (print_transcripts _ _) as [[[]|e|] w2]; congruence.
Qed.

(** Writing [None] never succeeds. *)
Lemma write_file_none (path language : string) (w : world) :
  fst (write_file path language PyNone w) = Raise TypeError \/
  fst (write_file path language PyNone w) = Raise IOError.
Proof.
  rewrite write_file_eq. unfold open_write, file_write. run.
  destruct (w_writable _ _); [left | right]; reflexivity.
Qed.

(** So a short-form run never ends well. *)
Lemma short_run_never_succeeds (fuel : nat) (a : args) (w : world) :
  length a = short -> forall new_path, fst (main fuel a w) <> Ok new_path.
Proof.
  intros Hshort new_path. unfold main. rewrite Hshort. run.
  destruct (get_audio (path a) w) as [[audio|e|] w1]; try discriminate.
  destruct (transcribe_short_audio_file _ audio w1) as [[v|e|] w2] eqn:D;
    try discriminate.
  apply short_driver_returns_none in D as ->.
  destruct (write_file_none (path a) (language a) w2) as [E|E];
    rewrite E; discriminate.
Qed.

(** C3 on a short-form run over two recognised segments: the driver
    prints them and answers [None], and the writer, having created an
    empty file, dies of [TypeError]; no transcript reaches any file. *)
Theorem short_run_loses_transcript :
  let r := main 0 Sample.short_run Sample.idle in
  fst (transcribe_short_audio_file (get_config "en-US" 44100)
         (RemoteRef "gs://bucket/clip.flac") Sample.idle) = Ok PyNone /\
  fst r = Raise TypeError /\
  w_trace (snd r) =
    [OpenRead "/tmp/clip.wav"; Recognize; Print "Transcript: hello";
     Print "Transcript: world"; OpenWrite "clip_en-US.txt"] /\
  w_files (snd r) !! "/home/user/clip_en-US.txt" = Some [] /\
  w_files (snd r) !! "/tmp/clip_en-US.txt" = None.
Proof. vm_compute. repeat split. Qed.

(** ** An empty result *)

(** C10 on a long-form run whose job is complete at once and recognised
    nothing: the transcript is empty and a file is still created, empty,
    but as [/home/user/clip_en-US.txt]; the reported
    [/tmp/clip_en-US.txt] does not exist. *)
Theorem empty_result_still_writes :
  let r := main 1 Sample.long_run Sample.silent in
  fst (assemble [] "" Sample.silent) = Ok "" /\
  fst r = Ok "/tmp/clip_en-US.txt" /\
  last (w_trace (snd r))
  = Some (Print "Saved transcription to /tmp/clip_en-US.txt") /\
  w_files (snd r) !! "/home/user/clip_en-US.txt" = Some [] /\
  w_files (snd r) !! "/tmp/clip_en-US.txt" = None.
Proof. vm_compute. repeat split. Qed.

(** * Beyond the claims *)

(** ** Frames *)

#[export] Instance same_env_pre : PreOrder same_env.
Proof.
  split.
  - intros w. repeat split.
  - intros w1 w2 w3 (A1 & A2 & A3 & A4 & A5 & A6) (B1 & B2 & B3 & B4 & B5 & B6).
    repeat split; congruence.
Qed.

#[export] Instance same_files_pre : PreOrder same_files.
Proof.
  split.
  - intros w. split; reflexivity.
  - intros w1 w2 w3 [A1 A2] [B1 B2]. split; [now transitivity w2 | congruence].
Qed.

#[export] Instance emits_only_pre (P : event -> Prop) :
  PreOrder (emits_only P).
Proof.
  split.
  - intros w. exists []. split; [now rewrite app_nil_r | constructor].
  - intros w1 w2 w3 (e1 & E1 & F1) (e2 & E2 & F2).
    exists (e1 ++ e2)%list. split.
    + now rewrite E2, E1, <- app_assoc.
    + apply Forall_app. now split.
Qed.

Section Frames.

Variable R : world -> world -> Prop.
Context {R_pre : PreOrder R}.
Hypothesis R_tick : forall w, R w (tick w).
Hypothesis R_polled : forall w, R w (polled w).
Variable allowed : string -> Prop.
Hypothesis R_print :
  forall msg w, allowed msg -> R w (add_event (Print msg) w).
Hypothesis allowed_timeout : allowed timeout_message.
Hypothesis allowed_waiting : forall text, allowed (waiting text).
Hypothesis allowed_sent :
  forall t,
    allowed ("Operation sent to Google Cloud for transcription at "
               ++ t ++ nl).
Hypothesis allowed_completed :
  forall t, allowed ("Operation completed at " ++ t ++ nl).
Hypothesis allowed_total :
  forall text, allowed ("Total operation time was " ++ text).
Hypothesis allowed_transcript :
  forall t, allowed ("Transcript: " ++ t).
Hypothesis R_sleep : forall s w, R w (add_event (Sleep s) w).
Hypothesis R_recognize : forall w, R w (add_event Recognize w).
Hypothesis R_long_running :
  forall w, R w (add_event LongRunningRecognize w).

Lemma keeps_bind {A B} (m : M A) (k : A -> M B) :
  keeps R m -> (forall a, keeps R (k a)) -> keeps R (m ≫= k).
Proof.
  intros Hm Hk w. unfold mbind, M_bind, bind. specialize (Hm w).
  destruct (m w) as [[a|e|] w']; cbn [snd] in *;
    [transitivity w'; [exact Hm | apply Hk] | exact Hm | exact Hm].
Qed.

Lemma keeps_ret {A} (a : A) : keeps R (mret a).
Proof. intros w. cbn. reflexivity. Qed.

Lemma keeps_raise {A} (e : exn) : keeps R (@raise A e).
Proof. intros w. cbn. reflexivity. Qed.

Lemma keeps_get_world : keeps R get_world.
Proof. intros w. cbn. reflexivity. Qed.

Lemma keeps_time_time : keeps R time_time.
Proof. intros w. apply R_tick. Qed.

Lemma keeps_time_ctime : keeps R time_ctime.
Proof.
  apply keeps_bind; [apply keeps_time_time|]. intros t.
  apply keeps_bind; [apply keeps_get_world | intros; apply keeps_ret].
Qed.

Lemma keeps_print (msg : string) : allowed msg -> keeps R (print msg).
Proof. intros H w. now apply R_print. Qed.

Lemma keeps_get_wait_time (start_time : Q) :
  keeps R (get_wait_time start_time).
Proof. intros w. rewrite get_wait_time_eq. apply R_tick. Qed.

Lemma keeps_first_alternative (result : segment) :
  keeps R (first_alternative result).
Proof. destruct result; [apply keeps_raise | apply keeps_ret]. Qed.

Lemma keeps_assemble (results : list segment) (acc : string) :
  keeps R (assemble results acc).
Proof.
  revert acc. induction results as [|result rest IH]; intros acc; simpl.
  - apply keeps_ret.
  - apply keeps_bind; [apply keeps_first_alternative | intros; apply IH].
Qed.

Lemma keeps_print_transcripts (results : list segment) :
  keeps R (print_transcripts results).
Proof.
  induction results as [|result rest IH]; simpl.
  - apply keeps_ret.
  - apply keeps_bind; [apply keeps_first_alternative|]. intros t.
    apply keeps_bind;
      [apply keeps_print, allowed_transcript | intros; apply IH].
Qed.

Lemma keeps_poll (fuel : nat) (start_time : Q) :
  keeps R (poll fuel start_time).
Proof.
  induction fuel as [|fuel IH]; simpl.
  - intros w. cbn. reflexivity.
  - apply keeps_bind; [intros w; apply R_polled|]. intros [|].
    + apply keeps_ret.
    + apply keeps_bind; [apply keeps_time_time|]. intros now.
      destruct (Qlt_bool _ _).
      * apply keeps_bind;
          [apply keeps_print, allowed_timeout | intros; apply keeps_raise].
      * apply keeps_bind; [apply keeps_get_wait_time|]. intros text.
        apply keeps_bind; [apply keeps_print, allowed_waiting|]. intros _.
        apply keeps_bind; [intros w; apply R_sleep | intros; apply IH].
Qed.

Lemma keeps_long_driver (fuel : nat) (config : RecognitionConfig)
    (audio : RecognitionAudio) :
  keeps R (transcribe_long_audio_file fuel config audio).
Proof.
  unfold transcribe_long_audio_file.
  apply keeps_bind; [intros w; apply R_long_running|]. intros _.
  apply keeps_bind; [apply keeps_time_ctime|]. intros sent.
  apply keeps_bind; [apply keeps_print, allowed_sent|]. intros _.
  apply keeps_bind; [apply keeps_time_time|]. intros start_time.
  apply keeps_bind; [apply keeps_poll|]. intros _.
  apply keeps_bind; [apply keeps_time_ctime|]. intros completed.
  apply keeps_bind; [apply keeps_print, allowed_completed|]. intros _.
  apply keeps_bind; [apply keeps_get_wait_time|]. intros total.
  apply keeps_bind; [apply keeps_print, allowed_total|]. intros _.
  apply keeps_bind.
  { apply keeps_bind; [apply keeps_get_world | intros; apply keeps_ret]. }
  intros results.
  apply keeps_bind; [apply keeps_assemble | intros; apply keeps_ret].
Qed.

Lemma keeps_short_driver (config : RecognitionConfig)
    (audio : RecognitionAudio) :
  keeps R (transcribe_short_audio_file config audio).
Proof.
  unfold transcribe_short_audio_file, client_recognize.
  apply keeps_bind.
  { apply keeps_bind; [intros w; apply R_recognize|]. intros _.
    apply keeps_bind; [apply keeps_get_world | intros; apply keeps_ret]. }
  intros results.
  apply keeps_bind; [apply keeps_print_transcripts | intros; apply keeps_ret].
Qed.

Lemma keeps_driver (fuel : nat) (a : args) (audio : RecognitionAudio) :
  keeps R (match length a with
           | short => transcribe_short_audio_file
                        (get_config (language a) (rate a)) audio
           | long => transcribe_long_audio_file fuel
                       (get_config (language a) (rate a)) audio
           end).
Proof.
  destruct (length a); [apply keeps_short_driver | apply keeps_long_driver].
Qed.

Hypothesis R_open_read : forall p w, R w (add_event (OpenRead p) w).

Lemma keeps_get_audio (path : string) : keeps R (get_audio path).
Proof.
  unfold get_audio, read_binary. destruct (Py.startswith _ _).
  - apply keeps_ret.
  - apply keeps_bind; [|intros; apply keeps_ret].
    apply keeps_bind; [intros w; apply R_open_read|]. intros _.
    apply keeps_bind; [apply keeps_get_world|]. intros w.
    destruct (_ !! _); [apply keeps_ret | apply keeps_raise].
Qed.

Hypothesis R_open_write : forall p w, R w (add_event (OpenWrite p) w).
Hypothesis R_files : forall fs w, R w (with_files fs w).
Hypothesis allowed_saved :
  forall p, allowed ("Saved transcription to " ++ p).

Lemma keeps_write_file (path language : string) (transcription : pyval) :
  keeps R (write_file path language transcription).
Proof.
  rewrite write_file_eq. unfold open_write, file_write.
  apply keeps_bind.
  { apply keeps_bind; [intros w; apply R_open_write|]. intros _.
    apply keeps_bind; [apply keeps_get_world|]. intros w.
    destruct (w_writable _ _); [intros w'; apply R_files | apply keeps_raise]. }
  intros _. apply keeps_bind.
  { destruct transcription; [apply keeps_raise|].
    apply keeps_bind; [apply keeps_get_world|]. intros w w'. apply R_files. }
  intros _.
  apply keeps_bind;
    [apply keeps_print, allowed_saved | intros; apply keeps_ret].
Qed.

Lemma keeps_main (fuel : nat) (a : args) : keeps R (main fuel a).
Proof.
  unfold main.
  apply keeps_bind; [apply keeps_get_audio|]. intros audio.
  apply keeps_bind; [apply keeps_driver | intros; apply keeps_write_file].
Qed.

End Frames.

(** *** The drivers and the loader leave the file system alone *)

Lemma get_audio_same_files (path : string) :
  keeps same_files (get_audio path).
Proof. apply keeps_get_audio; try apply _; intros; repeat split. Qed.

Lemma driver_same_files (fuel : nat) (a : args) (audio : RecognitionAudio) :
  keeps same_files
    (match length a with
     | short => transcribe_short_audio_file
                  (get_config (language a) (rate a)) audio
     | long => transcribe_long_audio_file fuel
                 (get_config (language a) (rate a)) audio
     end).
Proof.
  apply keeps_driver with (allowed := fun _ => True); try apply _; intros;
    repeat split.
Qed.

Lemma long_driver_same_files (fuel : nat) (config : RecognitionConfig)
    (audio : RecognitionAudio) :
  keeps same_files (transcribe_long_audio_file fuel config audio).
Proof.
  apply keeps_long_driver with (allowed := fun _ => True); try apply _; intros;
    repeat split.
Qed.

Lemma main_same_env (fuel : nat) (a : args) : keeps same_env (main fuel a).
Proof.
  apply keeps_main with (allowed := fun _ => True); try apply _; intros;
    repeat split.
Qed.

(** *** What the writer does to the file system *)

Lemma write_file_only_target (path language : string) (transcription : pyval)
    (w : world) (p : string) :
  p <> resolve (w_cwd w) (output_name path language) ->
  w_files (snd (write_file path language transcription w)) !! p
  = w_files w !! p.
Proof.
  intros Hp. rewrite write_file_eq. unfold open_write, file_write. run.
  cbn [w_cwd w_writable w_files add_event].
  destruct (w_writable w _); [|reflexivity].
  destruct transcription as [|text]; cbn [fst snd w_files w_cwd with_files
                                            add_event].
  - apply lookup_insert_ne. congruence.
  - run. cbn [w_files add_event with_files].
    rewrite lookup_insert_ne by congruence.
    apply lookup_insert_ne. congruence.
Qed.

(** X1. Whatever the mode, the outcome and the fuel, a run changes at most
    one file: every path other than the output name resolved against the
    working directory holds after the run what it held before. *)
Theorem main_touches_one_file (fuel : nat) (a : args) (w : world)
    (p : string) :
  p <> resolve (w_cwd w) (output_name (path a) (language a)) ->
  w_files (snd (main fuel a w)) !! p = w_files w !! p.
Proof.
  intros Hp. unfold main. run.
  pose proof (get_audio_same_files (path a) w) as S1.
  destruct (get_audio (path a) w) as [[audio|e|] w1]; cbn [snd] in *;
    try (destruct S1 as [_ ->]; reflexivity).
  pose proof (driver_same_files fuel a audio w1) as S2.
  match type of S2 with
  | same_files _ (snd (?d w1)) => destruct (d w1) as [[v|e|] w2]
  end; cbn [snd] in *;
    try (destruct S2 as [_ ->]; destruct S1 as [_ ->]; reflexivity).
  destruct S1 as [(C1 & _) F1]. destruct S2 as [(C2 & _) F2].
  rewrite write_file_only_target by (rewrite C2, C1; exact Hp).
  now rewrite F2, F1.
Qed.

Lemma main_touches_one_file_witness :
  "/tmp/clip.wav"
  <> resolve (w_cwd Sample.idle)
       (output_name (path Sample.long_run) (language Sample.long_run)) /\
  w_files (snd (main 1 Sample.long_run Sample.idle)) !! "/tmp/clip.wav"
  = w_files Sample.idle !! "/tmp/clip.wav".
Proof.
  assert (H : "/tmp/clip.wav"
              <> resolve (w_cwd Sample.idle)
                   (output_name (path Sample.long_run)
                      (language Sample.long_run)))
    by (vm_compute; discriminate).
  split; [exact H|].
  exact (main_touches_one_file 1 Sample.long_run Sample.idle
           "/tmp/clip.wav" H).
Defined.

Lemma bind_inv {A B} (m : M A) (k : A -> M B) (w w' : world) (b : B) :
  (m ≫= k) w = (Ok b, w') ->
  exists a w1, m w = (Ok a, w1) /\ k a w1 = (Ok b, w').
Proof.
  unfold mbind, M_bind, bind. destruct (m w) as [[a|e|] w1]; try discriminate.
  intros H. now exists a, w1.
Qed.

(** The long-form driver, when it comes back, comes back with a text. *)
Lemma long_driver_returns_str (fuel : nat) (config : RecognitionConfig)
    (audio : RecognitionAudio) (w w' : world) (v : pyval) :
  transcribe_long_audio_file fuel config audio w = (Ok v, w') ->
  exists text, v = PyStr text.
Proof.
  unfold transcribe_long_audio_file. intros H.
  do 10 (apply bind_inv in H as (? & ? & _ & H)).
  apply bind_inv in H as (text & ? & _ & H).
  exists text. unfold mret, M_ret, ret in H. congruence.
Qed.

(** The writer refused: nothing but the attempt is left. *)
Lemma write_file_refused (path language : string) (transcription : pyval)
    (w : world) :
  w_writable w (resolve (w_cwd w) (output_name path language)) = false ->
  write_file path language transcription w =
    (Raise IOError, add_event (OpenWrite (output_name path language)) w).
Proof.
  intros H. rewrite write_file_eq. unfold open_write. run.
  cbn [w_cwd w_writable add_event]. now rewrite H.
Qed.

(** X2. In long-form mode a run that does not end well leaves the file
    system exactly as it found it: whether the audio cannot be read, the
    loop or the formatter fails, a segment has no alternative, the fuel
    runs out or the output cannot be opened, no file is created, truncated
    or changed. *)
Theorem long_run_failure_writes_nothing (fuel : nat) (a : args) (w : world) :
  length a = long ->
  (forall new_path, fst (main fuel a w) <> Ok new_path) ->
  w_files (snd (main fuel a w)) = w_files w.
Proof.
  intros Hlong Hfail. unfold main in *. rewrite Hlong in *. run.
  pose proof (get_audio_same_files (path a) w) as S1.
  destruct (get_audio (path a) w) as [[audio|e|] w1]; cbn [snd] in *;
    try (now destruct S1 as [_ ->]).
  pose proof (long_driver_same_files fuel
                (get_config (language a) (rate a)) audio w1) as S2.
  destruct (transcribe_long_audio_file _ _ audio w1) as [[v|e|] w2] eqn:D;
    cbn [snd] in *;
    try (destruct S2 as [_ ->]; now destruct S1 as [_ ->]).
  destruct (long_driver_returns_str _ _ _ _ _ _ D) as [text ->].
  destruct (w_writable w2
              (resolve (w_cwd w2)
                 (output_name (path a) (language a)))) eqn:W.
  - exfalso. apply (Hfail (reported_path (path a) (language a))).
    now rewrite write_file_text.
  - rewrite write_file_refused by exact W. cbn [snd w_files add_event].
    destruct S2 as [_ ->]. now destruct S1 as [_ ->].
Qed.

Lemma long_run_failure_writes_nothing_witness :
  length Sample.long_run = long /\
  (forall new_path,
      fst (main 100 Sample.long_run Sample.stuck) <> Ok new_path) /\
  w_files (snd (main 100 Sample.long_run Sample.stuck))
  = w_files Sample.stuck.
Proof.
  assert (H : forall new_path,
             fst (main 100 Sample.long_run Sample.stuck) <> Ok new_path).
  { intros new_path.
    replace (fst (main 100 Sample.long_run Sample.stuck))
      with (@Raise string UnboundLocalError) by (vm_compute; reflexivity).
    discriminate. }
  split; [reflexivity|]. split; [exact H|].
  exact (long_run_failure_writes_nothing 100 Sample.long_run Sample.stuck
           eq_refl H).
Defined.

(** X3. When the audio is a local path at which there is no readable
    file, the run ends in [IOError] after the single attempt to open it:
    the recognition service is never contacted and nothing is written. *)
Theorem missing_audio_stops_run (fuel : nat) (a : args) (w : world) :
  Py.startswith "gs://" (path a) = false ->
  w_files w !! resolve (w_cwd w) (path a) = None ->
  main fuel a w = (Raise IOError, add_event (OpenRead (path a)) w).
Proof.
  intros Hlocal Hmissing. unfold main. run.
  now rewrite (get_audio_local (path a) w Hlocal), Hmissing.
Qed.

Lemma missing_audio_stops_run_witness :
  Py.startswith "gs://" (path Sample.missing_run) = false /\
  w_files Sample.idle !! resolve (w_cwd Sample.idle) (path Sample.missing_run)
  = None /\
  main 1 Sample.missing_run Sample.idle
  = (Raise IOError, add_event (OpenRead "/tmp/absent.flac") Sample.idle).
Proof.
  assert (H1 : Py.startswith "gs://" (path Sample.missing_run) = false)
    by reflexivity.
  assert (H2 : w_files Sample.idle
                 !! resolve (w_cwd Sample.idle) (path Sample.missing_run)
               = None) by (vm_compute; reflexivity).
  split; [exact H1|]. split; [exact H2|].
  exact (missing_audio_stops_run 1 Sample.missing_run Sample.idle H1 H2).
Defined.

(** ** The timeout, for every run *)

Lemma steady_clock_mono (i j : nat) :
  (i <= j)%nat -> (Sample.steady_clock i <= Sample.steady_clock j)%Q.
Proof.
  intros H. unfold Sample.steady_clock. rewrite <- Zle_Qle.
  apply Z.mul_le_mono_nonneg_l; [lia|].
  apply Nat2Z.inj_le. apply Nat.Div0.div_le_mono. lia.
Qed.

Lemma quiet_raise {A} (e : exn) (w : world) :
  e <> SystemExit -> quiet_at (@raise A e) w.
Proof.
  intros H. unfold quiet_at. cbn.
  repeat split; [congruence | lia].
Qed.

Lemma quiet_set_files (fs : gmap string (list Byte.byte)) (w : world) :
  quiet_at (set_files fs) w.
Proof.
  unfold quiet_at. cbn. repeat split; [discriminate | lia].
Qed.

Lemma quiet_get_audio (path : string) (w : world) :
  quiet_at (get_audio path) w.
Proof.
  unfold get_audio, read_binary. destruct (Py.startswith _ _).
  - apply quiet_ret.
  - apply quiet_bind; [|intros; apply quiet_ret].
    apply quiet_bind; [now apply quiet_emit|]. intros _ _.
    apply quiet_bind; [apply quiet_get_world|]. intros w' _.
    destruct (_ !! _); [apply quiet_ret | now apply quiet_raise].
Qed.

Lemma quiet_write_file (path language : string) (transcription : pyval)
    (w : world) :
  quiet_at (write_file path language transcription) w.
Proof.
  rewrite write_file_eq. unfold open_write, file_write.
  apply quiet_bind.
  { apply quiet_bind; [now apply quiet_emit|]. intros _ _.
    apply quiet_bind; [apply quiet_get_world|]. intros w' _.
    destruct (w_writable _ _);
      [apply quiet_set_files | now apply quiet_raise]. }
  intros _ _. apply quiet_bind.
  { destruct transcription; [now apply quiet_raise|].
    apply quiet_bind; [apply quiet_get_world|]. intros w' _.
    apply quiet_set_files. }
  intros _ _.
  apply quiet_bind; [now apply quiet_emit | intros; apply quiet_ret].
Qed.

Lemma quiet_print_transcripts (results : list segment) (w : world) :
  quiet_at (print_transcripts results) w.
Proof.
  revert w. induction results as [|result rest IH]; intros w; simpl.
  - apply quiet_ret.
  - apply quiet_bind.
    { destruct result; [now apply quiet_raise | apply quiet_ret]. }
    intros t _.
    apply quiet_bind; [now apply quiet_emit | intros; apply IH].
Qed.

Lemma quiet_short_driver (config : RecognitionConfig)
    (audio : RecognitionAudio) (w : world) :
  quiet_at (transcribe_short_audio_file config audio) w.
Proof.
  unfold transcribe_short_audio_file, client_recognize.
  apply quiet_bind.
  { apply quiet_bind; [now apply quiet_emit|]. intros _ _.
    apply quiet_bind; [apply quiet_get_world | intros; apply quiet_ret]. }
  intros results _.
  apply quiet_bind; [apply quiet_print_transcripts | intros; apply quiet_ret].
Qed.

(** X4. With a clock that never runs backwards, no run, in either mode
    and however long the job stays unfinished, ends through [exit()] or
    prints the twelve-hour message: the timeout of the polling loop is
    dead code. *)
Theorem main_never_times_out (fuel : nat) (a : args) (w : world) :
  (forall i j, (i <= j)%nat -> (w_clock w i <= w_clock w j)%Q) ->
  fst (main fuel a w) <> Raise SystemExit /\
  reports_timeout (w_trace (snd (main fuel a w)))
  = reports_timeout (w_trace w).
Proof.
  intros Hmono.
  assert (Q : quiet_at (main fuel a) w).
  { unfold main. apply quiet_bind; [apply quiet_get_audio|].
    intros audio _.
    destruct (quiet_get_audio (path a) w) as (_ & _ & Hclock & _).
    apply quiet_bind; [|intros; apply quiet_write_file].
    destruct (length a); [apply quiet_short_driver|].
    apply long_driver_never_times_out. rewrite Hclock. exact Hmono. }
  destruct Q as (H1 & H2 & _). now split.
Qed.

Lemma main_never_times_out_witness :
  (forall i j, (i <= j)%nat ->
     (w_clock Sample.stuck i <= w_clock Sample.stuck j)%Q) /\
  fst (main 100 Sample.long_run Sample.stuck) <> Raise SystemExit /\
  reports_timeout (w_trace (snd (main 100 Sample.long_run Sample.stuck)))
  = reports_timeout (w_trace Sample.stuck).
Proof.
  split; [exact steady_clock_mono|].
  exact (main_never_times_out 100 Sample.long_run Sample.stuck
           steady_clock_mono).
Defined.

(** ** What a run reads *)

Lemma emits_only_event (P : event -> Prop) (e : event) (w : world) :
  P e -> emits_only P w (add_event e w).
Proof. intros H. exists [e]. split; [reflexivity | now constructor]. Qed.

Lemma emits_only_silent (P : event -> Prop) (w w' : world) :
  w_trace w' = w_trace w -> emits_only P w w'.
Proof.
  intros H. exists []. split; [now rewrite app_nil_r | constructor].
Qed.



(** ** The writer, case by case *)

Lemma write_file_none_truncates (path language : string) (w : world) :
  w_writable w (resolve (w_cwd w) (output_name path language)) = true ->
  write_file path language PyNone w =
    (Raise TypeError,
     with_files (<[resolve (w_cwd w) (output_name path language) := []]>
                   (w_files w))
       (add_event (OpenWrite (output_name path language)) w)).
Proof.
  intros H. rewrite write_file_eq. unfold open_write, file_write. run.
  cbn [w_cwd w_writable add_event]. now rewrite H.
Qed.

(** X6. The writer on a text.  Where the output name, resolved against
    the working directory, can be opened for writing, the file there holds
    afterwards exactly the bytes of the text, whatever it held before, and
    the path of the input's directory joined to the output name is printed
    and returned.  Where it cannot, the writer fails with [IOError], no
    file changes and nothing is printed. *)
Theorem write_file_outcome (path language text : string) (w : world) :
  let name := output_name path language in
  let target := resolve (w_cwd w) name in
  let r := write_file path language (PyStr text) w in
  if w_writable w target
  then fst r = Ok (reported_path path language) /\
       w_files (snd r) !! target = Some (list_byte_of_string text) /\
       w_trace (snd r)
       = (w_trace w ++
          [OpenWrite name;
           Print ("Saved transcription to " ++ reported_path path language)])%list
  else fst r = Raise IOError /\
       w_files (snd r) = w_files w /\
       w_trace (snd r) = (w_trace w ++ [OpenWrite name])%list.
Proof.
  intros name target r. subst r.
  destruct (w_writable w target) eqn:W.
  - rewrite write_file_text by exact W.
    cbn [fst snd w_files w_trace add_event with_files]. fold name target.
    split; [reflexivity|]. split; [apply lookup_insert_eq|].
    now rewrite <- app_assoc.
  - rewrite write_file_refused by exact W. repeat split.
Qed.

(** ** Segments without alternatives *)

(** X7. A segment without alternatives makes the assembly fail with
    [IndexError], whatever was assembled before it and whatever follows:
    no part of the transcript is returned. *)
Theorem assemble_index_error (results : list segment) (acc : string)
    (w : world) :
  Exists (fun result => result = []) results ->
  assemble results acc w = (Raise IndexError, w).
Proof.
  intros H. revert acc.
  induction results as [|result rest IH]; intros acc.
  - inversion H.
  - destruct result as [|first others]; [reflexivity|].
    simpl. unfold first_alternative.
    erewrite bind_ok by reflexivity.
    apply IH. inversion H as [? ? E|]; [discriminate E | assumption].
Qed.

Lemma assemble_index_error_witness :
  Exists (fun result : segment => result = []) (w_results Sample.broken) /\
  assemble (w_results Sample.broken) "" Sample.broken
  = (Raise IndexError, Sample.broken).
Proof.
  assert (H : Exists (fun result : segment => result = [])
                (w_results Sample.broken))
    by (apply Exists_cons_tl, Exists_cons_hd; reflexivity).
  split; [exact H|].
  exact (assemble_index_error (w_results Sample.broken) "" Sample.broken H).
Defined.

(** ** The short-form driver *)

Lemma trace_add_events (evs : list event) (w : world) :
  w_trace (add_events evs w) = (w_trace w ++ evs)%list.
Proof.
  revert w. induction evs as [|e evs IH]; intros w; simpl.
  - now rewrite app_nil_r.
  - unfold add_events in IH. rewrite IH. cbn [w_trace add_event].
    now rewrite <- app_assoc.
Qed.

Lemma print_transcripts_all (results : list segment) (w : world) :
  Forall (fun result => result <> []) results ->
  print_transcripts results w
  = (Ok tt, add_events (map transcript_line results) w).
Proof.
  intros H. revert w. induction H as [|result rest Hne _ IH]; intros w.
  - reflexivity.
  - destruct result as [|first others]; [now destruct Hne|].
    simpl. unfold first_alternative, print.
    do 2 (erewrite bind_ok by reflexivity). apply IH.
Qed.

Lemma files_add_events (evs : list event) (w : world) :
  w_files (add_events evs w) = w_files w.
Proof.
  revert w. induction evs as [|e evs IH]; intros w; [reflexivity|].
  simpl. unfold add_events in IH. now rewrite IH.
Qed.

Lemma short_driver_eq (config : RecognitionConfig)
    (audio : RecognitionAudio) (w : world) :
  Forall (fun result => result <> []) (w_results w) ->
  transcribe_short_audio_file config audio w
  = (Ok PyNone,
     add_events (map transcript_line (w_results w)) (add_event Recognize w)).
Proof.
  intros H. unfold transcribe_short_audio_file, client_recognize.
  erewrite bind_ok by reflexivity.
  erewrite bind_ok by (apply print_transcripts_all; exact H).
  reflexivity.
Qed.

(** X8. When every segment has an alternative, the short-form driver
    calls the service once, prints one line "Transcript: ..." per segment
    with its first alternative, in order, and returns [None]: the
    transcripts go to the screen only. *)
Theorem short_driver_prints (config : RecognitionConfig)
    (audio : RecognitionAudio) (w : world) :
  Forall (fun result => result <> []) (w_results w) ->
  fst (transcribe_short_audio_file config audio w) = Ok PyNone /\
  w_trace (snd (transcribe_short_audio_file config audio w))
  = (w_trace w ++ Recognize :: map transcript_line (w_results w))%list /\
  w_files (snd (transcribe_short_audio_file config audio w)) = w_files w.
Proof.
  intros H. rewrite short_driver_eq by exact H. cbn [fst snd].
  split; [reflexivity|]. split.
  - rewrite trace_add_events. cbn [w_trace add_event].
    now rewrite <- app_assoc.
  - now rewrite files_add_events.
Qed.

Lemma short_driver_prints_witness :
  Forall (fun result : segment => result <> []) (w_results Sample.idle) /\
  w_trace (snd (transcribe_short_audio_file (get_config "en-US" 44100)
                  (RemoteRef "gs://bucket/clip.flac") Sample.idle))
  = (w_trace Sample.idle
     ++ Recognize :: map transcript_line (w_results Sample.idle))%list.
Proof.
  assert (H : Forall (fun result : segment => result <> [])
                (w_results Sample.idle))
    by (repeat constructor; discriminate).
  split; [exact H|].
  exact (proj1 (proj2 (short_driver_prints (get_config "en-US" 44100)
                         (RemoteRef "gs://bucket/clip.flac")
                         Sample.idle H))).
Defined.


Lemma get_audio_loads (path : string) (w : world) :
  Py.startswith "gs://" path = true \/
  is_Some (w_files w !! resolve (w_cwd w) path) ->
  exists audio w1,
    get_audio path w = (Ok audio, w1) /\
    (w1 = w \/ w1 = add_event (OpenRead path) w).
Proof.
  intros H. destruct (Py.startswith "gs://" path) eqn:P.
  - exists (RemoteRef path), w. unfold get_audio. rewrite P. now split; [|left].
  - destruct H as [H | [content H]]; [discriminate|].
    exists (LocalBytes content), (add_event (OpenRead path) w).
    rewrite (get_audio_local path w P), H. now split; [|right].
Qed.



(** ** The polling loop, round by round *)

(** One round of the loop on an unfinished job within the hour. *)
Lemma poll_round (fuel : nat) (start_time : Q) (w : world) :
  w_done w (w_polls w) = false ->
  (start_time <= w_clock w (w_reads w))%Q ->
  (py_round2 (w_clock w (S (w_reads w)) - start_time) <= 3600)%Q ->
  exists text,
    poll (S fuel) start_time w
    = poll fuel start_time
        (add_event (Sleep 120)
           (add_event (Print (waiting text)) (tick (tick (polled w))))).
Proof.
  intros Hdone Hstart Hhour.
  destruct (get_wait_time_within_hour start_time (tick (polled w)) Hhour)
    as [text Hwait].
  exists text. simpl.
  erewrite bind_ok by reflexivity. rewrite Hdone.
  erewrite bind_ok by reflexivity.
  change (w_clock (polled w) (w_reads (polled w)))
    with (w_clock w (w_reads w)).
  rewrite timeout_guard_false by exact Hstart.
  erewrite bind_ok by exact Hwait.
  unfold print, time_sleep.
  do 2 (erewrite bind_ok by reflexivity). reflexivity.
Qed.

(** [n] rounds of the loop, then the answer "done". *)
Lemma poll_rounds (n fuel : nat) (start_time : Q) (w : world) :
  (n < fuel)%nat ->
  (forall i, (i < n)%nat -> w_done w (w_polls w + i) = false) ->
  w_done w (w_polls w + n) = true ->
  started start_time w ->
  (forall i, (i < n)%nat ->
     (py_round2 (w_clock w (w_reads w + 2 * i + 1) - start_time)
      <= 3600)%Q) ->
  exists w' texts,
    poll fuel start_time w = (Ok tt, w') /\
    same_files w w' /\
    w_polls w' = (w_polls w + n + 1)%nat /\
    w_reads w' = (w_reads w + 2 * n)%nat /\
    List.length texts = n /\
    w_trace w' = (w_trace w ++ round_events texts)%list.
Proof.
  revert fuel w. induction n as [|n IH]; intros fuel w Hfuel Hnot Hdone
    Hstart Hhour.
  - destruct fuel as [|fuel]; [lia|].
    rewrite Nat.add_0_r in Hdone.
    exists (polled w), []. rewrite (poll_done fuel start_time w Hdone).
    cbn [w_polls w_reads w_trace polled round_events flat_map].
    repeat split; [lia | lia | now rewrite app_nil_r].
  - destruct fuel as [|fuel]; [lia|].
    destruct (poll_round fuel start_time w) as [text Hround].
    { rewrite <- (Nat.add_0_r (w_polls w)). apply Hnot. lia. }
    { apply Hstart. lia. }
    { replace (S (w_reads w)) with (w_reads w + 2 * 0 + 1)%nat by lia.
      apply Hhour. lia. }
    rewrite Hround. set (w1 := add_event _ _).
    destruct (IH fuel w1) as (w' & texts & P & F & Hp & Hr & Hl & Ht).
    + lia.
    + intros i Hi. cbn [w1 w_done w_polls add_event tick polled].
      replace (S (w_polls w) + i)%nat with (w_polls w + S i)%nat by lia.
      apply Hnot. lia.
    + cbn [w1 w_done w_polls add_event tick polled].
      replace (S (w_polls w) + n)%nat with (w_polls w + S n)%nat by lia.
      exact Hdone.
    + intros k Hk. cbn [w1 w_clock w_reads add_event tick polled] in *.
      apply Hstart. lia.
    + intros i Hi. cbn [w1 w_clock w_reads add_event tick polled].
      replace (S (S (w_reads w)) + 2 * i + 1)%nat
        with (w_reads w + 2 * S i + 1)%nat by lia.
      apply Hhour. lia.
    + exists w', (text :: texts). split; [exact P|].
      split; [transitivity w1; [repeat split | exact F]|].
      cbn [w1 w_polls w_reads w_trace add_event tick polled] in *.
      repeat split; [lia | lia | simpl; lia |].
      rewrite Ht. cbn [round_events flat_map].
      now rewrite <- !app_assoc.
Qed.

(** X10. When the job answers "done" for the first time at its [n]-th
    poll from now, the clock has reached [start_time] and every elapsed
    time reported on the way rounds to at most an hour, the loop ends
    normally for any fuel above [n]: it has asked the job [n + 1] times,
    read the clock [2 n] times, printed [n] waiting lines each followed by
    a sleep of 120 seconds, and touched no file. *)
Theorem poll_completes (n fuel : nat) (start_time : Q) (w : world) :
  (n < fuel)%nat ->
  (forall i, (i < n)%nat -> w_done w (w_polls w + i) = false) ->
  w_done w (w_polls w + n) = true ->
  started start_time w ->
  (forall i, (i < n)%nat ->
     (py_round2 (w_clock w (w_reads w + 2 * i + 1) - start_time)
      <= 3600)%Q) ->
  fst (poll fuel start_time w) = Ok tt /\
  same_files w (snd (poll fuel start_time w)) /\
  w_polls (snd (poll fuel start_time w)) = (w_polls w + n + 1)%nat /\
  w_reads (snd (poll fuel start_time w)) = (w_reads w + 2 * n)%nat /\
  exists texts,
    List.length texts = n /\
    w_trace (snd (poll fuel start_time w))
    = (w_trace w ++ round_events texts)%list.
Proof.
  intros Hfuel Hnot Hdone Hstart Hhour.
  destruct (poll_rounds n fuel start_time w Hfuel Hnot Hdone Hstart Hhour)
    as (w' & texts & -> & F & Hp & Hr & Hl & Ht).
  cbn [fst snd]. repeat split; try assumption; try apply F.
  now exists texts.
Qed.

Lemma poll_completes_witness :
  (2 < 3)%nat /\
  (forall i, (i < 2)%nat ->
     w_done Sample.slow (w_polls Sample.slow + i) = false) /\
  w_done Sample.slow (w_polls Sample.slow + 2) = true /\
  started 0 Sample.slow /\
  (forall i, (i < 2)%nat ->
     (py_round2 (w_clock Sample.slow (w_reads Sample.slow + 2 * i + 1) - 0)
      <= 3600)%Q) /\
  fst (poll 3 0 Sample.slow) = Ok tt /\
  w_polls (snd (poll 3 0 Sample.slow)) = (w_polls Sample.slow + 2 + 1)%nat /\
  w_reads (snd (poll 3 0 Sample.slow)) = (w_reads Sample.slow + 2 * 2)%nat.
Proof.
  assert (H1 : (2 < 3)%nat) by lia.
  assert (H2 : forall i, (i < 2)%nat ->
                 w_done Sample.slow (w_polls Sample.slow + i) = false).
  { intros i Hi. destruct i as [|[|i]]; [reflexivity | reflexivity | lia]. }
  assert (H3 : w_done Sample.slow (w_polls Sample.slow + 2) = true)
    by reflexivity.
  assert (H4 : started 0 Sample.slow).
  { intros k _. apply (steady_clock_mono 0 k). lia. }
  assert (H5 : forall i, (i < 2)%nat ->
                 (py_round2 (w_clock Sample.slow
                               (w_reads Sample.slow + 2 * i + 1) - 0)
                  <= 3600)%Q).
  { intros i Hi.
    destruct i as [|[|i]]; [vm_compute; discriminate
                           | vm_compute; discriminate | lia]. }
  split; [exact H1|]. split; [exact H2|]. split; [exact H3|].
  split; [exact H4|]. split; [exact H5|].
  destruct (poll_completes 2 3 0%Q Sample.slow H1 H2 H3 H4 H5)
    as (R1 & _ & R2 & R3 & _).
  split; [exact R1|]. split; [exact R2 | exact R3].
Defined.

Lemma bind_raise {A B} (m : M A) (k : A -> M B) (w w' : world) (e : exn) :
  m w = (Raise e, w') -> (m ≫= k) w = (Raise e, w').
Proof. intros H. unfold mbind, M_bind, bind. now rewrite H. Qed.

Lemma get_wait_time_past_hour (start_time : Q) (w : world) :
  (3600 < py_round2 (elapsed start_time w))%Q ->
  get_wait_time start_time w = (Raise UnboundLocalError, tick w).
Proof.
  intros H. rewrite get_wait_time_eq. cbv zeta.
  now rewrite !Qle_bool_false by lra.
Qed.

(** X11. The loop cannot wait longer than an hour: when the job is still
    unfinished at the first poll at which the elapsed time rounds to more
    than 3600 seconds, the loop dies of [UnboundLocalError] there, for any
    fuel that reaches that poll, having touched no file. *)
Theorem poll_dies_past_the_hour (n fuel : nat) (start_time : Q) (w : world) :
  (n < fuel)%nat ->
  (forall i, (i <= n)%nat -> w_done w (w_polls w + i) = false) ->
  started start_time w ->
  (forall i, (i < n)%nat ->
     (py_round2 (w_clock w (w_reads w + 2 * i + 1) - start_time)
      <= 3600)%Q) ->
  (3600 < py_round2 (w_clock w (w_reads w + 2 * n + 1) - start_time))%Q ->
  exists w',
    poll fuel start_time w = (Raise UnboundLocalError, w') /\
    same_files w w' /\
    w_reads w' = (w_reads w + 2 * n + 2)%nat.
Proof.
  revert fuel w. induction n as [|n IH]; intros fuel w Hfuel Hnot Hstart
    Hhour Hpast.
  - destruct fuel as [|fuel]; [lia|].
    exists (tick (tick (polled w))). split; [|split; [repeat split|simpl; lia]].
    simpl. erewrite bind_ok by reflexivity.
    rewrite <- (Nat.add_0_r (w_polls w)), Hnot by lia.
    erewrite bind_ok by reflexivity.
    change (w_clock (polled w) (w_reads (polled w)))
      with (w_clock w (w_reads w)).
    rewrite timeout_guard_false by (apply Hstart; lia).
    apply bind_raise. apply get_wait_time_past_hour.
    unfold elapsed. cbn [w_clock w_reads tick polled].
    replace (S (w_reads w)) with (w_reads w + 2 * 0 + 1)%nat by lia.
    exact Hpast.
  - destruct fuel as [|fuel]; [lia|].
    destruct (poll_round fuel start_time w) as [text Hround].
    { rewrite <- (Nat.add_0_r (w_polls w)). apply Hnot. lia. }
    { apply Hstart. lia. }
    { replace (S (w_reads w)) with (w_reads w + 2 * 0 + 1)%nat by lia.
      apply Hhour. lia. }
    rewrite Hround. set (w1 := add_event _ _).
    destruct (IH fuel w1) as (w' & P & F & Hr).
    + lia.
    + intros i Hi. cbn [w1 w_done w_polls add_event tick polled].
      replace (S (w_polls w) + i)%nat with (w_polls w + S i)%nat by lia.
      apply Hnot. lia.
    + intros k Hk. cbn [w1 w_clock w_reads add_event tick polled] in *.
      apply Hstart. lia.
    + intros i Hi. cbn [w1 w_clock w_reads add_event tick polled].
      replace (S (S (w_reads w)) + 2 * i + 1)%nat
        with (w_reads w + 2 * S i + 1)%nat by lia.
      apply Hhour. lia.
    + cbn [w1 w_clock w_reads add_event tick polled].
      replace (S (S (w_reads w)) + 2 * n + 1)%nat
        with (w_reads w + 2 * S n + 1)%nat by lia.
      exact Hpast.
    + exists w'. split; [exact P|].
      split; [transitivity w1; [repeat split | exact F]|].
      cbn [w1 w_reads add_event tick polled] in Hr. lia.
Qed.

Lemma poll_dies_past_the_hour_witness :
  (31 < 32)%nat /\
  (forall i, (i <= 31)%nat ->
     w_done (tick (tick Sample.stuck))
       (w_polls (tick (tick Sample.stuck)) + i) = false) /\
  started 0 (tick (tick Sample.stuck)) /\
  (forall i, (i < 31)%nat ->
     (py_round2
        (w_clock (tick (tick Sample.stuck))
           (w_reads (tick (tick Sample.stuck)) + 2 * i + 1) - 0)
      <= 3600)%Q) /\
  (3600 < py_round2
            (w_clock (tick (tick Sample.stuck))
               (w_reads (tick (tick Sample.stuck)) + 2 * 31 + 1) - 0))%Q /\
  exists w',
    poll 32 0 (tick (tick Sample.stuck)) = (Raise UnboundLocalError, w') /\
    same_files (tick (tick Sample.stuck)) w' /\
    w_reads w' = (w_reads (tick (tick Sample.stuck)) + 2 * 31 + 2)%nat.
Proof.
  assert (H1 : (31 < 32)%nat) by lia.
  assert (H2 : forall i, (i <= 31)%nat ->
                 w_done (tick (tick Sample.stuck))
                   (w_polls (tick (tick Sample.stuck)) + i) = false)
    by (intros; reflexivity).
  assert (H3 : started 0 (tick (tick Sample.stuck))).
  { intros k _. apply (steady_clock_mono 0 k). lia. }
  assert (H4 : forall i, (i < 31)%nat ->
                 (py_round2
                    (w_clock (tick (tick Sample.stuck))
                       (w_reads (tick (tick Sample.stuck)) + 2 * i + 1)
                     - 0) <= 3600)%Q).
  { intros i Hi.
    do 31 (destruct i as [|i]; [vm_compute; discriminate|]). lia. }
  assert (H5 : (3600 < py_round2
                  (w_clock (tick (tick Sample.stuck))
                     (w_reads (tick (tick Sample.stuck)) + 2 * 31 + 1)
                   - 0))%Q) by (vm_compute; reflexivity).
  split; [exact H1|]. split; [exact H2|]. split; [exact H3|].
  split; [exact H4|]. split; [exact H5|].
  exact (poll_dies_past_the_hour 31 32 0%Q (tick (tick Sample.stuck))
           H1 H2 H3 H4 H5).
Defined.

(** ** Rounding is monotone *)

Lemma round_half_even_mono (x y : Q) :
  (x <= y)%Q -> (round_half_even x <= round_half_even y)%Z.
Proof.
  intros H. destruct (Qlt_le_dec x y) as [Hlt | Hge].
  - pose proof (round_half_even_near x) as [_ Hx].
    pose proof (round_half_even_near y) as [Hy _].
    assert (L : (inject_Z (round_half_even x)
                 < inject_Z (round_half_even y + 1))%Q).
    { rewrite inject_Z_plus. change (inject_Z 1) with 1%Q. lra. }
    rewrite <- Zlt_Qlt in L. lia.
  - assert (E : (x == y)%Q) by (apply Qle_antisym; assumption).
    rewrite (round_half_even_comp _ _ E). lia.
Qed.

Lemma py_round2_mono (x y : Q) :
  (x <= y)%Q -> (py_round2 x <= py_round2 y)%Q.
Proof.
  intros H. unfold py_round2.
  assert (L : (round_half_even (x * 100) <= round_half_even (y * 100))%Z)
    by (apply round_half_even_mono; lra).
  unfold Qle. simpl. lia.
Qed.

(** ** A long-form run that ends well *)

Lemma long_driver_completes (n fuel : nat) (config : RecognitionConfig)
    (audio : RecognitionAudio) (w : world) :
  (n < fuel)%nat ->
  (forall i, (i < n)%nat -> w_done w (w_polls w + i) = false) ->
  w_done w (w_polls w + n) = true ->
  (forall i j, (i <= j)%nat -> (w_clock w i <= w_clock w j)%Q) ->
  (py_round2 (w_clock w (w_reads w + 2 * n + 3) - w_clock w (w_reads w + 1))
   <= 3600)%Q ->
  Forall (fun result => result <> []) (w_results w) ->
  exists w',
    transcribe_long_audio_file fuel config audio w
    = (Ok (PyStr (transcript_of (map (hd "") (w_results w)))), w') /\
    same_files w w'.
Proof.
  intros Hfuel Hnot Hdone Hmono Hhour Hresults.
  unfold transcribe_long_audio_file, client_long_running_recognize,
    time_ctime, operation_results, print.
  do 4 (erewrite bind_ok by reflexivity).
  match goal with
  | |- context [(poll fuel ?st ≫= _) ?w0] =>
      set (start_time := st); set (w1 := w0)
  end.
  assert (Est : start_time = w_clock w (w_reads w + 1)).
  { unfold start_time. cbn [w_clock w_reads add_event tick].
    f_equal. lia. }
  assert (E1 : same_files w w1) by (unfold w1; repeat split).
  assert (R1 : w_reads w1 = S (S (w_reads w))) by reflexivity.
  assert (P1 : w_polls w1 = w_polls w) by reflexivity.
  pose proof E1 as [(_ & _ & C1 & _ & D1 & Res1) F1].
  destruct (poll_rounds n fuel start_time w1)
    as (w2 & texts & P & E2 & _ & R2 & _); try exact Hfuel;
    [| | | | pose proof E2 as [(_ & _ & C2 & _ & D2 & Res2) F2]].
  { intros i Hi. rewrite D1, P1. now apply Hnot. }
  { rewrite D1, P1. exact Hdone. }
  { intros k Hk. rewrite Est, C1. apply Hmono. lia. }
  { intros i Hi. rewrite Est, C1, R1.
    eapply Qle_trans; [|exact Hhour].
    apply py_round2_mono.
    assert (w_clock w (S (S (w_reads w)) + 2 * i + 1)
            <= w_clock w (w_reads w + 2 * n + 3))%Q by (apply Hmono; lia).
    lra. }
  erewrite bind_ok by exact P.
  do 2 (erewrite bind_ok by reflexivity).
  match goal with
  | |- context [(get_wait_time ?st ≫= _) ?w0] =>
      destruct (get_wait_time_within_hour st w0) as [text Hwait]
  end.
  { unfold elapsed. cbn [w_clock w_reads add_event tick].
    fold start_time. rewrite C2, C1, R2, R1, Est.
    replace (S (S (S (w_reads w)) + 2 * n))
      with (w_reads w + 2 * n + 3)%nat by lia.
    exact Hhour. }
  erewrite bind_ok by exact Hwait.
  do 2 (erewrite bind_ok by reflexivity).
  cbn [w_results add_event tick]. rewrite Res2, Res1.
  erewrite bind_ok by (apply assemble_from; exact Hresults).
  eexists. split; [reflexivity|].
  transitivity w1; [exact E1|]. transitivity w2; [exact E2|].
  repeat split.
Qed.

(** X12. A long-form run from end to end.  When the audio loads, the job
    answers "done" for the first time at its [n]-th poll, the clock never
    runs backwards, the whole wait rounds to at most an hour, every
    segment has an alternative and the output name can be opened for
    writing in the working directory, the run returns the reported path
    and the file of that name in the working directory holds the bytes of
    the first alternatives, each followed by a newline. *)
Theorem long_run_end_to_end (n fuel : nat) (a : args) (w : world) :
  length a = long ->
  (n < fuel)%nat ->
  Py.startswith "gs://" (path a) = true \/
  is_Some (w_files w !! resolve (w_cwd w) (path a)) ->
  (forall i, (i < n)%nat -> w_done w (w_polls w + i) = false) ->
  w_done w (w_polls w + n) = true ->
  (forall i j, (i <= j)%nat -> (w_clock w i <= w_clock w j)%Q) ->
  (py_round2 (w_clock w (w_reads w + 2 * n + 3) - w_clock w (w_reads w + 1))
   <= 3600)%Q ->
  Forall (fun result => result <> []) (w_results w) ->
  w_writable w (resolve (w_cwd w) (output_name (path a) (language a)))
  = true ->
  fst (main fuel a w) = Ok (reported_path (path a) (language a)) /\
  w_files (snd (main fuel a w))
    !! resolve (w_cwd w) (output_name (path a) (language a))
  = Some (list_byte_of_string (transcript_of (map (hd "") (w_results w)))).
Proof.
  intros Hlong Hfuel Hload Hnot Hdone Hmono Hhour Hresults Hwritable.
  destruct (get_audio_loads (path a) w Hload) as (audio & w1 & G & Hw1).
  assert (D : exists w2,
             transcribe_long_audio_file fuel
               (get_config (language a) (rate a)) audio w1
             = (Ok (PyStr (transcript_of (map (hd "") (w_results w)))), w2)
             /\ same_files w w2).
  { destruct Hw1 as [-> | ->].
    - now apply (long_driver_completes n).
    - destruct (long_driver_completes n fuel
                  (get_config (language a) (rate a)) audio
                  (add_event (OpenRead (path a)) w))
        as (w2 & D & E); try assumption.
      exists w2. split; [exact D|].
      transitivity (add_event (OpenRead (path a)) w);
        [repeat split | exact E]. }
  destruct D as (w2 & D & [(C & Wr & _) F]).
  unfold main. rewrite Hlong.
  erewrite bind_ok by exact G. erewrite bind_ok by exact D.
  rewrite write_file_text by (rewrite C, Wr; exact Hwritable).
  cbn [fst snd w_files with_files add_event]. rewrite C.
  split; [reflexivity | apply lookup_insert_eq].
Qed.

Lemma long_run_end_to_end_witness :
  length Sample.long_run = long /\
  (2 < 3)%nat /\
  (Py.startswith "gs://" (path Sample.long_run) = true \/
   is_Some (w_files Sample.slow
              !! resolve (w_cwd Sample.slow) (path Sample.long_run))) /\
  (forall i, (i < 2)%nat ->
     w_done Sample.slow (w_polls Sample.slow + i) = false) /\
  w_done Sample.slow (w_polls Sample.slow + 2) = true /\
  (forall i j, (i <= j)%nat ->
     (w_clock Sample.slow i <= w_clock Sample.slow j)%Q) /\
  (py_round2 (w_clock Sample.slow (w_reads Sample.slow + 2 * 2 + 3)
              - w_clock Sample.slow (w_reads Sample.slow + 1)) <= 3600)%Q /\
  Forall (fun result : segment => result <> []) (w_results Sample.slow) /\
  w_writable Sample.slow
    (resolve (w_cwd Sample.slow)
       (output_name (path Sample.long_run) (language Sample.long_run)))
  = true /\
  fst (main 3 Sample.long_run Sample.slow) = Ok "/tmp/clip_en-US.txt" /\
  w_files (snd (main 3 Sample.long_run Sample.slow))
    !! "/home/user/clip_en-US.txt"
  = Some (list_byte_of_string ("hello" ++ nl ++ "world" ++ nl)).
Proof.
  assert (H1 : (2 < 3)%nat) by lia.
  assert (H2 : Py.startswith "gs://" (path Sample.long_run) = true \/
               is_Some (w_files Sample.slow
                          !! resolve (w_cwd Sample.slow)
                               (path Sample.long_run))).
  { right. vm_compute. eexists. reflexivity. }
  assert (H3 : forall i, (i < 2)%nat ->
                 w_done Sample.slow (w_polls Sample.slow + i) = false).
  { intros i Hi. destruct i as [|[|i]]; [reflexivity | reflexivity | lia]. }
  assert (H4 : w_done Sample.slow (w_polls Sample.slow + 2) = true)
    by reflexivity.
  assert (H5 : (py_round2
                  (w_clock Sample.slow (w_reads Sample.slow + 2 * 2 + 3)
                   - w_clock Sample.slow (w_reads Sample.slow + 1))
                <= 3600)%Q) by (vm_compute; discriminate).
  assert (H6 : Forall (fun result : segment => result <> [])
                 (w_results Sample.slow))
    by (repeat constructor; discriminate).
  split; [reflexivity|]. split; [exact H1|]. split; [exact H2|].
  split; [exact H3|]. split; [exact H4|].
  split; [exact steady_clock_mono|]. split; [exact H5|].
  split; [exact H6|]. split; [reflexivity|].
  exact (long_run_end_to_end 2 3 Sample.long_run Sample.slow eq_refl H1 H2
           H3 H4 steady_clock_mono H5 H6 eq_refl).
Defined.

(** ** An input without a directory *)

Lemma rfind_from_no_slash (s : string) (i last : Z) :
  no_slash s = true -> Py.rfind_from os_path.sep s i last = last.
Proof.
  revert i last. induction s as [|c s IH]; intros i last H; [reflexivity|].
  simpl in H. apply andb_prop in H as [Hc Hs].
  simpl. rewrite IH by exact Hs.
  apply negb_true_iff in Hc. unfold os_path.sep. now rewrite Hc.
Qed.

Lemma substring_all (s : string) : substring 0 (String.length s) s = s.
Proof. induction s as [|c s IH]; [reflexivity | simpl; now rewrite IH]. Qed.

Lemma split_no_slash (p : string) :
  no_slash p = true -> os_path.split p = ("", p).
Proof.
  intros H. unfold os_path.split, Py.rfind.
  rewrite rfind_from_no_slash by exact H.
  change (Z.to_nat (-1 + 1)) with 0%nat.
  assert (T : Py.take 0 p = "") by (destruct p; reflexivity).
  rewrite T. unfold Py.drop. rewrite Nat.sub_0_r, substring_all.
  reflexivity.
Qed.

Lemma join_empty (b : string) : os_path.join "" b = b.
Proof. unfold os_path.join. now destruct (Py.startswith "/" b). Qed.

(** X13. When the input path has no slash in it, the writer is
    consistent: the path it reports is the name it opened, so that, where
    the file can be opened for writing, the reported path resolved against
    the working directory holds the bytes of the text. *)
Theorem write_file_in_place (path language text : string) (w : world) :
  no_slash path = true ->
  w_writable w (resolve (w_cwd w) (output_name path language)) = true ->
  reported_path path language = output_name path language /\
  fst (write_file path language (PyStr text) w)
  = Ok (output_name path language) /\
  w_files (snd (write_file path language (PyStr text) w))
    !! resolve (w_cwd w) (reported_path path language)
  = Some (list_byte_of_string text).
Proof.
  intros Hpath Hwritable.
  assert (E : reported_path path language = output_name path language).
  { unfold reported_path. rewrite split_no_slash by exact Hpath.
    apply join_empty. }
  rewrite write_file_text by exact Hwritable. rewrite E.
  cbn [fst snd w_files with_files add_event].
  split; [reflexivity|]. split; [reflexivity | apply lookup_insert_eq].
Qed.

Lemma write_file_in_place_witness :
  no_slash "clip.wav" = true /\
  w_writable Sample.idle
    (resolve (w_cwd Sample.idle) (output_name "clip.wav" "en-US")) = true /\
  fst (write_file "clip.wav" "en-US" (PyStr "hello") Sample.idle)
  = Ok "clip_en-US.txt" /\
  w_files (snd (write_file "clip.wav" "en-US" (PyStr "hello") Sample.idle))
    !! "/home/user/clip_en-US.txt"
  = Some (list_byte_of_string "hello").
Proof.
  split; [reflexivity|]. split; [reflexivity|].
  exact (proj2 (write_file_in_place "clip.wav" "en-US" "hello" Sample.idle
                  eq_refl eq_refl)).
Defined.

(** ** Dispatch *)

(** X14. The mode decides which call of the service is made: a
    short-form run never makes the long-running call and never sleeps, a
    long-form run never makes the synchronous call, whatever the outcome. *)
Theorem main_dispatch (fuel : nat) (a : args) (w : world) :
  emits_only (fun e => foreign_to (length a) e = false) w
    (snd (main fuel a w)).
Proof.
  unfold main.
  apply keeps_bind; try apply _.
  { apply keeps_get_audio; try apply _; intros;
      solve [now apply emits_only_silent
            | apply emits_only_event; now destruct (length a)]. }
  intros audio. apply keeps_bind; try apply _.
  - destruct (length a).
    + apply keeps_short_driver with (allowed := fun _ => True); try apply _; intros;
        solve [exact I | now apply emits_only_silent
              | now apply emits_only_event].
    + apply keeps_long_driver with (allowed := fun _ => True); try apply _; intros;
        solve [exact I | now apply emits_only_silent
              | now apply emits_only_event].
  - intros v.
    apply keeps_write_file with (allowed := fun _ => True); try apply _; intros;
      solve [exact I | now apply emits_only_silent
            | apply emits_only_event; now destruct (length a)].
Qed.

(** ** What a run reports *)

Lemma write_file_failure_is_silent (path language : string)
    (transcription : pyval) (w : world) :
  (forall new_path,
      fst (write_file path language transcription w) <> Ok new_path) ->
  emits_only (fun e => is_saved_line e = false) w
    (snd (write_file path language transcription w)).
Proof.
  intros Hfail.
  destruct (w_writable w (resolve (w_cwd w) (output_name path language)))
    eqn:W.
  - destruct transcription as [|text].
    + rewrite write_file_none_truncates by exact W.
      exists [OpenWrite (output_name path language)].
      split; [reflexivity | now repeat constructor].
    + exfalso. apply (Hfail (reported_path path language)).
      now rewrite write_file_text.
  - rewrite write_file_refused by exact W.
    exists [OpenWrite (output_name path language)].
    split; [reflexivity | now repeat constructor].
Qed.

(** X15. A run reports a saved file exactly when it ends well.  When it
    returns a path, that path is the input's directory joined to the
    output name and the last line printed is "Saved transcription to "
    followed by it; when it does not, no event it adds to the trace is
    such a line. *)
Theorem main_reports_faithfully (fuel : nat) (a : args) (w : world) :
  (forall new_path,
      fst (main fuel a w) = Ok new_path ->
      new_path = reported_path (path a) (language a) /\
      last (w_trace (snd (main fuel a w)))
      = Some (Print ("Saved transcription to " ++ new_path))) /\
  ((forall new_path, fst (main fuel a w) <> Ok new_path) ->
   emits_only (fun e => is_saved_line e = false) w (snd (main fuel a w))).
Proof.
  assert (K1 : emits_only (fun e => is_saved_line e = false) w
                 (snd (get_audio (path a) w))).
  { apply keeps_get_audio; try apply _; intros;
      solve [now apply emits_only_silent | now apply emits_only_event]. }
  unfold main. run.
  destruct (get_audio (path a) w) as [[audio|e|] w1]; cbn [fst snd] in *;
    try (split; [discriminate | intros _; exact K1]).
  assert (K2 : keeps (emits_only (fun e => is_saved_line e = false))
                 (match length a with
                  | short => transcribe_short_audio_file
                               (get_config (language a) (rate a)) audio
                  | long => transcribe_long_audio_file fuel
                              (get_config (language a) (rate a)) audio
                  end)).
  { apply keeps_driver
      with (allowed := fun msg => Py.startswith "Saved transcription to " msg
                                  = false);
      try apply _; intros;
      solve [reflexivity | now apply emits_only_silent
            | now apply emits_only_event]. }
  specialize (K2 w1).
  match type of K2 with
  | emits_only _ _ (snd (?d w1)) => destruct (d w1) as [[v|e|] w2]
  end; cbn [fst snd] in *;
    try (split; [discriminate | intros _; now transitivity w1]).
  split.
  - intros new_path H.
    rewrite write_file_eq in *. unfold open_write, file_write in *. run.
    destruct (w_writable _ _); [|discriminate].
    destruct v as [|text]; [discriminate|]. run.
    cbn [fst snd w_trace add_event with_files] in *.
    injection H as <-. split; [reflexivity | apply last_snoc].
  - intros Hfail. transitivity w1; [exact K1|].
    transitivity w2; [exact K2|].
    now apply write_file_failure_is_silent.
Qed.

Lemma main_reports_faithfully_witness :
  fst (main 100 Sample.long_run Sample.stuck) = Raise UnboundLocalError /\
  emits_only (fun e => is_saved_line e = false) Sample.stuck
    (snd (main 100 Sample.long_run Sample.stuck)).
Proof.
  assert (E : fst (main 100 Sample.long_run Sample.stuck)
              = Raise UnboundLocalError) by (vm_compute; reflexivity).
  split; [exact E|].
  apply (proj2 (main_reports_faithfully 100 Sample.long_run Sample.stuck)).
  intros new_path. rewrite E. discriminate.
Defined.
